(** * The Express/Mongoose backend of [backend.js], as a shallow embedding

    The nine route handlers of [src/backend.js] are embedded as functions of
    the request and of a [World]: the three Mongoose collections, the
    [ObjectId] supply, the clock, the entropy that salts come from and the
    mails the relay accepted.  An [async] handler body is a computation in
    the monad [Async], which threads the world and may throw; the handler's
    [try { ... } catch (error) { ... }] is [try_catch].

    The third-party packages (Mongoose, bcryptjs, jsonwebtoken, firebase-admin,
    nodemailer) are not code of this repository.  What their documented
    interface fixes is written out as definitions; what it leaves open (the
    hash function itself, the casts of values of the wrong type, the
    provider's and the relay's answers) is a [Variable] of the section
    [Backend]. *)

From Stdlib Require Import ZArith NArith Ascii String List DecimalString Floats.PrimFloat.
From stdpp Require Import base option strings list gmap sorting.

Set Default Proof Using "Type".
Set Warnings "-register-all".
Local Open Scope string_scope.
Local Open Scope list_scope.

(** ** JavaScript values *)

(** The values a parsed JSON body can hold, and [undefined], which a property
    read of an absent key gives. Numbers are IEEE doubles, as in JavaScript. *)
Inductive jsval : Type :=
  | JUndefined
  | JNull
  | JBool (b : bool)
  | JNum (x : float)
  | JStr (s : string)
  | JArr (items : list jsval)
  | JObj (fields : list (string * jsval)).

(** [!v] is [negb (truthy v)]: [undefined], [null], [false], [0], [-0], [NaN]
    and [""] are the falsy values. *)
Definition truthy (v : jsval) : bool :=
  match v with
  | JUndefined | JNull => false
  | JBool b => b
  | JNum x => negb (PrimFloat.eqb x 0 || negb (PrimFloat.eqb x x))
  | JStr "" => false
  | JStr _ => true
  | JArr _ | JObj _ => true
  end.

Definition typeof (v : jsval) : string :=
  match v with
  | JUndefined => "undefined"
  | JNull => "object"
  | JBool _ => "boolean"
  | JNum _ => "number"
  | JStr _ => "string"
  | JArr _ | JObj _ => "object"
  end.

(** [req.body] is the object [express.json()] parsed; reading a key that is
    not there gives [undefined], which is what the destructuring
    [const { email, password } = req.body] binds. *)
Abbreviation Body := (gmap string jsval).

Definition prop (body : Body) (key : string) : jsval :=
  default JUndefined (body !! key).

(** ** Documents (the Mongoose schemas, lines 41-61) *)

Definition ObjectId := N.

Module User.
Record t := mk
  { _id : ObjectId; firstName : string; lastName : string;
    email : string; password : string }.
End User.

Module Trip.
Record t := mk
  { _id : ObjectId; name : string; date : Z; budget : float }.
End Trip.

Module Notification.
Record t := mk
  { _id : ObjectId; message : string; type : string; createdAt : Z }.
End Notification.

(** A mail handed to [transporter.sendMail]. *)
Record Mail := mkMail
  { from : option string; to : jsval; subject : string; text : string }.

(** ** The world a handler runs in *)

Record World := mkWorld
  { users : list User.t;
    trips : list Trip.t;
    notifications : list Notification.t;
    nextId : N;          (* the next [ObjectId] that [new Model(...)] assigns *)
    now : Z;             (* [Date.now()], milliseconds *)
    entropy : N;         (* state of the generator bcrypt draws salts from *)
    outbox : list Mail   (* mails the relay accepted *) }.

Definition set_users (f : list User.t → list User.t) (w : World) : World :=
  mkWorld (f (users w)) (trips w) (notifications w) (nextId w) (now w) (entropy w) (outbox w).
Definition set_trips (f : list Trip.t → list Trip.t) (w : World) : World :=
  mkWorld (users w) (f (trips w)) (notifications w) (nextId w) (now w) (entropy w) (outbox w).
Definition set_notifications (f : list Notification.t → list Notification.t) (w : World) : World :=
  mkWorld (users w) (trips w) (f (notifications w)) (nextId w) (now w) (entropy w) (outbox w).
Definition set_nextId (f : N → N) (w : World) : World :=
  mkWorld (users w) (trips w) (notifications w) (f (nextId w)) (now w) (entropy w) (outbox w).
Definition set_entropy (f : N → N) (w : World) : World :=
  mkWorld (users w) (trips w) (notifications w) (nextId w) (now w) (f (entropy w)) (outbox w).
Definition set_outbox (f : list Mail → list Mail) (w : World) : World :=
  mkWorld (users w) (trips w) (notifications w) (nextId w) (now w) (entropy w) (f (outbox w)).

(** ** Promises that may reject *)

(** A settled promise: fulfilled with a value, or rejected with an [Error]
    whose [message] is kept. *)
Inductive outcome (A : Type) : Type :=
  | Return (a : A)
  | Throw (message : string).
Arguments Return {A} a.
Arguments Throw {A} message.

Definition Async (A : Type) : Type := World → outcome A * World.

#[global] Instance Async_ret : MRet Async := λ A a w, (Return a, w).
#[global] Instance Async_bind : MBind Async := λ A B f m w,
  match m w with
  | (Return a, w') => f a w'
  | (Throw e, w') => (Throw e, w')
  end.

Definition throw {A} (message : string) : Async A := λ w, (Throw message, w).

(** A synchronous call or a promise that does not touch the world. *)
Definition settle {A} (o : outcome A) : Async A := λ w, (o, w).

(** ** Responses *)

(** What [res.json] is given: an object literal of the handler, whose fields
    are strings or a document, or an array of documents. *)
Inductive Json : Type :=
  | Str (s : string)
  | TripDoc (t : Trip.t)
  | NotificationDoc (n : Notification.t).

Inductive Payload : Type :=
  | Object (fields : list (string * Json))
  | TripArray (l : list Trip.t)
  | NotificationArray (l : list Notification.t).

Record Response := mkResponse { status : nat; json : Payload }.

(** [try { body } catch (error) { handler(error.message) }] around a handler
    body that ends by sending a response. *)
Definition try_catch (body : Async Response) (handler : string → Response)
  : World → Response * World := λ w,
  match body w with
  | (Return r, w') => (r, w')
  | (Throw e, w') => (handler e, w')
  end.

(** ** Parts of the packages that their interface fixes *)

(** [Model.find().sort({ key: 1 })]: the documents in ascending order of the
    key. The sort is an insertion sort that keeps documents with equal keys in
    their stored order. *)
Fixpoint insert_sorted {A} (key : A → Z) (x : A) (l : list A) : list A :=
  match l with
  | [] => [x]
  | y :: l' => if (key x <=? key y)%Z then x :: y :: l' else y :: insert_sorted key x l'
  end.

Definition sort_asc {A} (key : A → Z) (l : list A) : list A :=
  foldr (insert_sorted key) [] l.

(** [sort({ key: -1 })]: descending order. *)
Definition sort_desc {A} (key : A → Z) (l : list A) : list A :=
  sort_asc (λ x, - key x)%Z l.

(** [findByIdAndDelete] removes one document: the first that matches. *)
Fixpoint remove_first {A} (p : A → bool) (l : list A) : list A :=
  match l with
  | [] => []
  | x :: l' => if p x then l' else x :: remove_first p l'
  end.

(** The value of a string of hexadecimal digits, [None] when a character is
    not one. *)
Definition hex_digit (c : ascii) : option N :=
  let n := N_of_ascii c in
  if (48 <=? n)%N && (n <=? 57)%N then Some (n - 48)%N
  else if (97 <=? n)%N && (n <=? 102)%N then Some (n - 87)%N
  else if (65 <=? n)%N && (n <=? 70)%N then Some (n - 55)%N
  else None.

Fixpoint hex_value (s : string) (acc : N) : option N :=
  match s with
  | "" => Some acc
  | String c s' => d ← hex_digit c; hex_value s' (16 * acc + d)%N
  end.

(** [new ObjectId()]: ids are handed out by a counter; only their freshness
    matters here. *)
Definition new_ObjectId : Async ObjectId :=
  λ w, (Return (nextId w), set_nextId N.succ w).

Definition Date_now : Async Z := λ w, (Return (now w), w).

(** The claims of a token: the payload given to [jwt.sign], with the issue
    and expiry times (seconds) that it adds. *)
Module Jwt.
Record payload := mkPayload { id : ObjectId; email : string }.
Record claims := mkClaims { signed : payload; iat : Z; exp : Z }.
End Jwt.

(** ** A reference instance of the packages

    One concrete choice for everything the section [Backend] leaves open,
    with a small world, on which the handlers run by computation. *)

Module Ref.

(** Doubles and integers.  An integer below 2^53 in magnitude is a double
    exactly; [trunc x] is the integer part of such a double, with whether
    the double is that integer ([None]: NaN, or 2^53 and beyond). *)
Fixpoint float_of_positive (p : positive) : float :=
  match p with
  | xH => 1
  | xO q => 2 * float_of_positive q
  | xI q => 2 * float_of_positive q + 1
  end%float.

Definition float_of_N (n : N) : float :=
  match n with
  | N0 => 0%float
  | Npos p => float_of_positive p
  end.

Fixpoint trunc_bits (k : nat) (x : float) (acc : Z) : Z * float :=
  match k with
  | O => (acc, x)
  | S k' =>
      let bit := (2 ^ N.of_nat k')%N in
      if (float_of_N bit <=? x)%float
      then trunc_bits k' (x - float_of_N bit)%float (acc + Z.of_N bit)%Z
      else trunc_bits k' x acc
  end.

Definition trunc (x : float) : option (Z * bool) :=
  if (abs x <? 9007199254740992)%float
  then let '(z, rest) := trunc_bits 53 (abs x) 0%Z in
       Some (if (x <? 0)%float then (- z)%Z else z, (rest =? 0)%float)
  else None.

(** A string of decimal digits, with or without a minus sign. *)
Fixpoint digits_value (s : string) (acc : N) : option N :=
  match s with
  | "" => Some acc
  | String c s' =>
      let n := N_of_ascii c in
      if (48 <=? n)%N && (n <=? 57)%N then digits_value s' (10 * acc + (n - 48))%N
      else None
  end.

Definition decimal (s : string) : option (bool * N) :=
  match s with
  | "" => None
  | String "-" "" => None
  | String "-" s' => pair true <$> digits_value s' 0
  | _ => pair false <$> digits_value s 0
  end.

(** Mongoose's [castString] of a value that is no string: [toString()] of a
    boolean and of a number (here: of an integer below 2^53, which prints
    as its decimal digits), the [_id] of an object that has a string one,
    and a CastError for an array and for any other object. *)
Definition castStringOther (v : jsval) : option string :=
  match v with
  | JBool true => Some "true"
  | JBool false => Some "false"
  | JNum x =>
      match trunc x with
      | Some (z, true) => Some (NilZero.string_of_int (Z.to_int z))
      | _ => None
      end
  | JObj fields =>
      match snd <$> find (λ kv, bool_decide (kv.1 = "_id")) fields with
      | Some (JStr (String c s)) => Some (String c s)
      | _ => None
      end
  | _ => None
  end.

(** Mongoose's [castDate]: a number is a time in milliseconds, cut to an
    integer, within the 8.64e15 that a [Date] holds on either side; a string
    that is a number outside the range of years, [-271820, 275761), is one
    too.  A boolean is refused, and so are objects and arrays.  Of the other
    strings, which [Date.parse] reads, none is a date here. *)
Definition castDate (v : jsval) : option Z :=
  let clip (t : Z) := if (Z.abs t <=? 8640000000000000)%Z then Some t else None in
  match v with
  | JNum x => '(z, _) ← trunc x; clip z
  | JStr s =>
      '(negative, n) ← decimal s;
      let t := if negative : bool then (- Z.of_N n)%Z else Z.of_N n in
      if (275761 <=? t)%Z || (t <? -271820)%Z then clip t else None
  | _ => None
  end.

(** Mongoose's [castNumber]: a number is itself, a boolean is 1 or 0, a
    string is [Number(string)] (here: of a string of decimal digits below
    2^53; other strings are taken for [NaN]); objects and arrays are
    refused. *)
Definition castNumber (v : jsval) : option float :=
  match v with
  | JNum x => Some x
  | JBool true => Some 1%float
  | JBool false => Some 0%float
  | JStr s =>
      '(negative, n) ← decimal s;
      if (n <? 2 ^ 53)%N
      then Some (if negative : bool then (- float_of_N n)%float else float_of_N n)
      else None
  | _ => None
  end.

(** The filter [{ email: v }] for a [v] that is no string.  An object whose
    keys are query operators is a condition on the stored email, not an
    email: [{ $ne: null }] holds of every stored user, [{ $ne: s }] of those
    with another email than [s], [{ $eq: s }] of those with the email [s],
    and several operators hold together.  Of the operators, these two are
    read here.  Any other value is cast to a string as above and compared. *)
Definition castOperand (v : jsval) : option string :=
  match v with
  | JStr s => Some s
  | _ => castStringOther v
  end.

Definition castCondition (condition : string * jsval) : option (string → bool) :=
  match condition with
  | ("$ne", JNull) => Some (λ _, true)
  | ("$eq", JNull) => Some (λ _, false)
  | ("$ne", v) => (λ s stored, negb (bool_decide (stored = s))) <$> castOperand v
  | ("$eq", v) => (λ s stored, bool_decide (stored = s)) <$> castOperand v
  | _ => None
  end.

Definition castQueryOther (v : jsval) : option (string → bool) :=
  match v with
  | JObj ((String "$" operator, operand) :: conditions) =>
      foldr (λ condition rest,
               holds ← castCondition condition;
               others ← rest;
               Some (λ stored, holds stored && others stored))
            (Some (λ _, true))
            ((String "$" operator, operand) :: conditions)
  | _ => (λ s stored, bool_decide (stored = s)) <$> castStringOther v
  end.

Definition castObjectId12 (id : string) : option ObjectId := None.

Definition genSalt (rounds : nat) (e : N) : string * N :=
  (String (ascii_of_N (97 + e mod 26)%N) "", N.succ e).

Definition hashSync (plain salt : string) : string :=
  "$2b$10$" +:+ salt +:+ "$" +:+ plain.

Definition compareSync (plain hash : string) : bool :=
  let n := String.length plain + 1 in
  bool_decide (substring (String.length hash - n) n hash = "$" +:+ plain).

Definition jwt_encode (c : Jwt.claims) (key : string) : string :=
  NilZero.string_of_uint (N.to_uint (Jwt.id (Jwt.signed c)))
  +:+ "." +:+ Jwt.email (Jwt.signed c)
  +:+ "." +:+ NilZero.string_of_int (Z.to_int (Jwt.iat c))
  +:+ "." +:+ NilZero.string_of_int (Z.to_int (Jwt.exp c))
  +:+ "." +:+ key.

Definition timespanOther (expiresIn : string) : option Z := None.

Definition generatePasswordResetLink (email : jsval) : outcome string :=
  match email with
  | JStr e => Return ("https://id.example/reset?email=" +:+ e)
  | _ => Throw "The email address is improperly formatted."
  end.

Definition deliver (m : Mail) : outcome () :=
  match to m with
  | JStr "bounce@example.com" => Throw "Recipient address rejected"
  | _ => Return ()
  end.

Definition JWT_SECRET : option string := Some "s3cret".
Definition EMAIL_USER : option string := Some "noreply@example.com".

Definition ann : User.t :=
  User.mk 1%N "Ann" "Lee" "ann@example.com" (hashSync "correct horse" "a").

Definition rome : Trip.t := Trip.mk 2%N "Rome" 300%Z 1200%float.
Definition oslo : Trip.t := Trip.mk 3%N "Oslo" 100%Z 800%float.
Definition lima : Trip.t := Trip.mk 4%N "Lima" 200%Z 950%float.

Definition hello : Notification.t := Notification.mk 5%N "Hello" "info" 50%Z.

Definition world : World :=
  {| users := [ann]; trips := [rome; oslo; lima]; notifications := [hello];
     nextId := 6%N; now := 1700000000000%Z; entropy := 1%N; outbox := [] |}.

(** An id of 24 hexadecimal digits: the number 3. *)
Definition id3 : string := "000000000000000000000003".

(** Request bodies. *)
Definition only_name : Body := {[ "name" := JStr "Kyiv" ]}.

Definition free_trip : Body :=
  {[ "name" := JStr "Kyiv"; "date" := JNum 150; "budget" := JNum 0 ]}.

Definition blank_name : Body :=
  {[ "name" := JStr ""; "date" := JNum 150; "budget" := JNum 10 ]}.

Definition blank_type : Body := {[ "message" := JStr "Hi"; "type" := JStr "" ]}.

Definition bob : Body :=
  {[ "firstName" := JStr "Bob"; "lastName" := JStr "Ray";
     "email" := JStr "bob@example.com"; "password" := JStr "hunter2" ]}.

Definition bob_blank_first : Body := <[ "firstName" := JStr "" ]> bob.

Definition ann_again : Body := <[ "email" := JStr "ann@example.com" ]> bob.

Definition ann_only : Body := {[ "email" := JStr "ann@example.com" ]}.

Definition ann_login : Body :=
  {[ "email" := JStr "ann@example.com"; "password" := JStr "correct horse" ]}.

Definition ann_wrong : Body :=
  {[ "email" := JStr "ann@example.com"; "password" := JStr "battery staple" ]}.

Definition zed_login : Body :=
  {[ "email" := JStr "zed@example.com"; "password" := JStr "battery staple" ]}.

(** A login whose [email] is the query operator [{ "$ne": null }]. *)
Definition anyone_login : Body :=
  {[ "email" := JObj [("$ne", JNull)]; "password" := JStr "correct horse" ]}.

Definition bounce : Body := {[ "email" := JStr "bounce@example.com" ]}.

Definition bob_login : Body :=
  {[ "email" := JStr "bob@example.com"; "password" := JStr "hunter2" ]}.

Definition kyiv : Body :=
  {[ "name" := JStr "Kyiv"; "date" := JNum 150; "budget" := JNum 10 ]}.

Definition bye : Notification.t := Notification.mk 7%N "Bye" "info" 60%Z.

Definition bob_numeric : Body := <[ "password" := JNum 12345 ]> bob.

Definition kyiv_soon : Body := <[ "date" := JStr "soon" ]> kyiv.

Definition hi : Body := {[ "message" := JStr "Hi"; "type" := JStr "info" ]}.

Definition hi_again : Body := {[ "message" := JStr "Hi again"; "type" := JStr "info" ]}.

Definition nested : Body :=
  {[ "message" := JObj [("text", JStr "Hi")]; "type" := JStr "info" ]}.

(** The id of 24 hexadecimal digits that is the number 6. *)
Definition id6 : string := "000000000000000000000006".

(** A database without documents. *)
Definition empty : World :=
  {| users := []; trips := []; notifications := [];
     nextId := 0%N; now := 1700000000000%Z; entropy := 0%N; outbox := [] |}.

End Ref.

(** ** The handlers *)

Section Backend.

(** *** What the packages leave open *)

(** Mongoose's casts of a value that is neither a string nor absent to the
    schema type [String] ([None]: the cast or the [required] validator
    fails), and of any value to [Date] and [Number]. *)
Variable castStringOther : jsval → option string.
Variable castDate : jsval → option Z.
Variable castNumber : jsval → option float.
(** The condition on the stored [email] that the filter [{ email: v }]
    denotes when [v] is neither a string nor absent ([None]: a CastError). *)
Variable castQueryOther : jsval → option (string → bool).
(** Whether the installed [bson] reads a 12-character string as an id. *)
Variable castObjectId12 : string → option ObjectId.

(** bcryptjs: salt generation from the entropy, the hash of a password
    under a salt, the comparison of a password with a stored hash. *)
Variable genSalt : nat → N → string * N.
Variable hashSync : string → string → string.
Variable compareSync : string → string → bool.

(** jsonwebtoken: the compact serialisation of a set of claims signed with a
    key, and the seconds that a timespan string other than ["1h"] denotes
    ([None]: not a timespan). *)
Variable jwt_encode : Jwt.claims → string → string.
Variable timespanOther : string → option Z.

(** firebase-admin's [generatePasswordResetLink] and the answer of the mail
    relay to a mail. *)
Variable generatePasswordResetLink : jsval → outcome string.
Variable deliver : Mail → outcome ().

(** [process.env]. *)
Variable JWT_SECRET : option string.
Variable EMAIL_USER : option string.

(** *** Mongoose *)

(** A path of type [String] with [required: true]: the string itself, unless
    it is empty or the value is absent. *)
Definition requiredString (v : jsval) : option string :=
  match v with
  | JStr "" => None
  | JStr s => Some s
  | JUndefined | JNull => None
  | _ => castStringOther v
  end.

Definition requiredDate (v : jsval) : option Z :=
  match v with
  | JUndefined | JNull => None
  | _ => castDate v
  end.

Definition requiredNumber (v : jsval) : option float :=
  match v with
  | JUndefined | JNull => None
  | _ => castNumber v
  end.

(** The filter [{ email: v }]: a string matches the documents with that
    email; [undefined] and [null] match the documents without an email, of
    which the collection has none. *)
Definition emailQuery (v : jsval) : option (string → bool) :=
  match v with
  | JStr s => Some (λ stored, bool_decide (stored = s))
  | JUndefined | JNull => Some (λ _, false)
  | _ => castQueryOther v
  end.

(** A string of 24 hexadecimal digits is an id; a string of another length
    than 12 or 24 is none. *)
Definition castObjectId (id : string) : option ObjectId :=
  if decide (String.length id = 24) then hex_value id 0
  else if decide (String.length id = 12) then castObjectId12 id
  else None.

(** [User.findOne({ email })]: the first matching document, or [null]. *)
Definition User_findOne (email : jsval) : Async (option User.t) :=
  match emailQuery email with
  | Some matches => λ w, (Return (find (λ u, matches (User.email u)) (users w)), w)
  | None => throw "Cast to string failed for path email"
  end.

(** [new Model({...})] assigns the [_id] and casts the paths; it never
    throws. [None] is a document that will not validate. *)
Definition new_User (firstName lastName email password : jsval) : Async (option User.t) :=
  id ← new_ObjectId;
  mret (f ← requiredString firstName; l ← requiredString lastName;
        e ← requiredString email; p ← requiredString password;
        Some (User.mk id f l e p)).

Definition new_Trip (name date budget : jsval) : Async (option Trip.t) :=
  id ← new_ObjectId;
  mret (n ← requiredString name; d ← requiredDate date; b ← requiredNumber budget;
        Some (Trip.mk id n d b)).

(** [createdAt] has the default [Date.now]. *)
Definition new_Notification (message type : jsval) : Async (option Notification.t) :=
  id ← new_ObjectId;
  createdAt ← Date_now;
  mret (m ← requiredString message; t ← requiredString type;
        Some (Notification.mk id m t createdAt)).

(** [doc.save()]: validates, inserts and resolves to the document. The
    unique index on [email] (line 44) rejects a second document with the
    same email. *)
Definition User_save (doc : option User.t) : Async User.t :=
  match doc with
  | None => throw "User validation failed"
  | Some u => λ w,
      if existsb (λ v, bool_decide (User.email v = User.email u)) (users w)
      then (Throw "E11000 duplicate key error", w)
      else (Return u, set_users (λ l, l ++ [u]) w)
  end.

Definition Trip_save (doc : option Trip.t) : Async Trip.t :=
  match doc with
  | None => throw "Trip validation failed"
  | Some t => λ w, (Return t, set_trips (λ l, l ++ [t]) w)
  end.

Definition Notification_save (doc : option Notification.t) : Async Notification.t :=
  match doc with
  | None => throw "Notification validation failed"
  | Some n => λ w, (Return n, set_notifications (λ l, l ++ [n]) w)
  end.

(** [Model.findByIdAndDelete(id)]: a CastError when the string is no id. *)
Definition Trip_findByIdAndDelete (id : string) : Async (option Trip.t) :=
  match castObjectId id with
  | None => throw "Cast to ObjectId failed for path _id"
  | Some oid => λ w,
      let hit := λ t, bool_decide (Trip._id t = oid) in
      (Return (find hit (trips w)), set_trips (remove_first hit) w)
  end.

Definition Notification_findByIdAndDelete (id : string) : Async (option Notification.t) :=
  match castObjectId id with
  | None => throw "Cast to ObjectId failed for path _id"
  | Some oid => λ w,
      let hit := λ n, bool_decide (Notification._id n = oid) in
      (Return (find hit (notifications w)), set_notifications (remove_first hit) w)
  end.

(** *** bcryptjs, jsonwebtoken, nodemailer *)

(** [bcrypt.hash(s, rounds)] rejects unless [s] is a string; otherwise it
    draws a salt and hashes. *)
Definition bcrypt_hash (s : jsval) (rounds : nat) : Async string :=
  match s with
  | JStr plain => λ w,
      let '(salt, e) := genSalt rounds (entropy w) in
      (Return (hashSync plain salt), set_entropy (λ _, e) w)
  | _ => throw ("Illegal arguments: " +:+ typeof s +:+ ", number")
  end.

(** [bcrypt.compare(s, hash)] rejects unless [s] is a string. *)
Definition bcrypt_compare (s : jsval) (hash : string) : outcome bool :=
  match s with
  | JStr plain => Return (compareSync plain hash)
  | _ => Throw ("Illegal arguments: " +:+ typeof s +:+ ", string")
  end.

(** The [expiresIn] option as seconds: ["1h"] is one hour. *)
Definition timespan (expiresIn : string) : option Z :=
  if decide (expiresIn = "1h") then Some 3600%Z else timespanOther expiresIn.

(** [jwt.sign(payload, secret, { expiresIn })] at the time [iat] (seconds): it
    throws without a secret, and otherwise signs the payload together with
    [iat] and [exp = iat + expiresIn]. *)
Definition jwt_sign (p : Jwt.payload) (secret : option string) (expiresIn : string) (iat : Z)
  : outcome string :=
  match secret with
  | None | Some "" => Throw "secretOrPrivateKey must have a value"
  | Some key =>
      match timespan expiresIn with
      | Some seconds => Return (jwt_encode (Jwt.mkClaims p iat (iat + seconds)) key)
      | None => Throw "expiresIn should be a number of seconds or string representing a timespan"
      end
  end.

(** [jwt.sign] reads the clock for the [iat] claim. *)
Definition jwt_sign_now (p : Jwt.payload) (secret : option string) (expiresIn : string)
  : Async string :=
  ms ← Date_now;
  settle (jwt_sign p secret expiresIn (ms / 1000)%Z).

(** [transporter.sendMail]: an accepted mail is on its way. *)
Definition sendMail (m : Mail) : Async () :=
  λ w, match deliver m with
       | Return _ => (Return (), set_outbox (λ l, l ++ [m]) w)
       | Throw e => (Throw e, w)
       end.

Definition Trip_find_sort_date : Async (list Trip.t) :=
  λ w, (Return (sort_asc Trip.date (trips w)), w).

Definition Notification_find_sort_createdAt : Async (list Notification.t) :=
  λ w, (Return (sort_desc Notification.createdAt (notifications w)), w).

(** *** The routes *)

Definition error_body (error : string) : Payload := Object [("error", Str error)].

(** [app.post("/signup")], lines 64-81. *)
Definition signup (body : Body) : World → Response * World :=
  try_catch
    (let firstName := prop body "firstName" in
     let lastName := prop body "lastName" in
     let email := prop body "email" in
     let password := prop body "password" in
     if negb (truthy firstName) || negb (truthy lastName)
        || negb (truthy email) || negb (truthy password)
     then mret (mkResponse 400 (error_body "All fields are required"))
     else
       existingUser ← User_findOne email;
       if existingUser is Some _
       then mret (mkResponse 400 (error_body "Email already registered"))
       else
         hashedPassword ← bcrypt_hash password 10;
         newUser ← new_User firstName lastName email (JStr hashedPassword);
         _ ← User_save newUser;
         mret (mkResponse 201 (Object [("message", Str "User registered successfully!")])))
    (λ error, mkResponse 500
                (Object [("error", Str "Error adding user"); ("details", Str error)])).

(** [app.post("/login")], lines 83-97. [res.json] without [res.status]
    answers 200. *)
Definition login (body : Body) : World → Response * World :=
  try_catch
    (let email := prop body "email" in
     let password := prop body "password" in
     user ← User_findOne email;
     match user with
     | None => mret (mkResponse 400 (error_body "User not found"))
     | Some user =>
         isMatch ← settle (bcrypt_compare password (User.password user));
         if negb isMatch
         then mret (mkResponse 400 (error_body "Invalid credentials"))
         else
           token ← jwt_sign_now (Jwt.mkPayload (User._id user) (User.email user))
                                JWT_SECRET "1h";
           mret (mkResponse 200
                   (Object [("message", Str "Login successful!"); ("token", Str token)]))
     end)
    (λ error, mkResponse 500
                (Object [("error", Str "Server error"); ("details", Str error)])).

(** [app.post('/reset-password')], lines 109-123. *)
Definition reset_password (body : Body) : World → Response * World :=
  try_catch
    (let email := prop body "email" in
     link ← settle (generatePasswordResetLink email);
     _ ← sendMail
           {| from := EMAIL_USER; to := email; subject := "Password Reset";
              text := "Click the following link to reset your password: " +:+ link |};
     mret (mkResponse 200
             (Object [("message", Str "Password reset email sent!"); ("link", Str link)])))
    (λ _, mkResponse 500 (error_body "Failed to send reset email")).

(** [app.post("/trip/add")], lines 126-136. *)
Definition trip_add (body : Body) : World → Response * World :=
  try_catch
    (let name := prop body "name" in
     let date := prop body "date" in
     let budget := prop body "budget" in
     if negb (truthy name) || negb (truthy date) || negb (truthy budget)
     then mret (mkResponse 400 (error_body "All fields are required"))
     else
       newTrip ← new_Trip name date budget;
       newTrip ← Trip_save newTrip;
       mret (mkResponse 201
               (Object [("message", Str "Trip added successfully!"); ("trip", TripDoc newTrip)])))
    (λ _, mkResponse 500 (error_body "Error adding trip")).

(** [app.get("/trip")], lines 138-145. *)
Definition trip_list : World → Response * World :=
  try_catch
    (trips ← Trip_find_sort_date;
     mret (mkResponse 200 (TripArray trips)))
    (λ _, mkResponse 500 (error_body "Error fetching trips")).

(** [app.delete("/trip/delete/:id")], lines 147-154; [id] is
    [req.params.id]. *)
Definition trip_delete (id : string) : World → Response * World :=
  try_catch
    (_ ← Trip_findByIdAndDelete id;
     mret (mkResponse 200 (Object [("message", Str "Trip deleted successfully!")])))
    (λ _, mkResponse 500 (error_body "Error deleting trip")).

(** [app.post("/notification/add")], lines 157-168. *)
Definition notification_add (body : Body) : World → Response * World :=
  try_catch
    (let message := prop body "message" in
     let type := prop body "type" in
     if negb (truthy message) || negb (truthy type)
     then mret (mkResponse 400 (error_body "Message and type are required"))
     else
       newNotification ← new_Notification message type;
       newNotification ← Notification_save newNotification;
       mret (mkResponse 201
               (Object [("message", Str "Notification added successfully!");
                        ("notification", NotificationDoc newNotification)])))
    (λ error, mkResponse 500
                (Object [("error", Str "Error adding notification"); ("details", Str error)])).

(** [app.get("/notification")], lines 170-177. *)
Definition notification_list : World → Response * World :=
  try_catch
    (notifications ← Notification_find_sort_createdAt;
     mret (mkResponse 200 (NotificationArray notifications)))
    (λ _, mkResponse 500 (error_body "Error fetching notifications")).

(** [app.delete("/notification/delete/:id")], lines 179-186. *)
Definition notification_delete (id : string) : World → Response * World :=
  try_catch
    (_ ← Notification_findByIdAndDelete id;
     mret (mkResponse 200 (Object [("message", Str "Notification deleted successfully!")])))
    (λ _, mkResponse 500 (error_body "Error deleting notification")).

(** *** The route table *)

Inductive Request : Type :=
  | PostSignup (body : Body)
  | PostLogin (body : Body)
  | PostResetPassword (body : Body)
  | PostTripAdd (body : Body)
  | GetTrip
  | DeleteTrip (id : string)
  | PostNotificationAdd (body : Body)
  | GetNotification
  | DeleteNotification (id : string).

Definition handle (request : Request) : World → Response * World :=
  match request with
  | PostSignup body => signup body
  | PostLogin body => login body
  | PostResetPassword body => reset_password body
  | PostTripAdd body => trip_add body
  | GetTrip => trip_list
  | DeleteTrip id => trip_delete id
  | PostNotificationAdd body => notification_add body
  | GetNotification => notification_list
  | DeleteNotification id => notification_delete id
  end.

(** The requests of a list, served one after the other. *)
Definition serve (requests : list Request) (w : World) : World :=
  foldl (λ w request, (handle request w).2) w requests.

(** ** Properties of the handlers *)

(** *** Reading the body *)

Lemma prop_present (body : Body) key v : body !! key = Some v → prop body key = v.
Proof. unfold prop. by intros ->. Qed.

Lemma prop_absent (body : Body) key : body !! key = None → prop body key = JUndefined.
Proof. unfold prop. by intros ->. Qed.

Lemma prop_delete (body : Body) key : prop (delete key body) key = JUndefined.
Proof. apply prop_absent, lookup_delete_eq. Qed.

Lemma truthy_JStr s : s ≠ "" → truthy (JStr s) = true.
Proof. by destruct s. Qed.

(** *** The presence checks (lines 67, 129, 160)

    Each [if (!a || !b ...)] answers 400 and leaves the world as it was as
    soon as one of the fields it reads is falsy. *)

Definition validation_error : Response :=
  mkResponse 400 (error_body "All fields are required").

Lemma signup_guard body w :
  truthy (prop body "firstName") && truthy (prop body "lastName")
  && truthy (prop body "email") && truthy (prop body "password") = false →
  signup body w = (validation_error, w).
Proof.
  intros H. unfold signup, try_catch. cbv zeta.
  destruct (truthy (prop body "firstName")), (truthy (prop body "lastName")),
    (truthy (prop body "email")), (truthy (prop body "password"));
    simpl in H; try discriminate H; reflexivity.
Qed.

Lemma trip_add_guard body w :
  truthy (prop body "name") && truthy (prop body "date")
  && truthy (prop body "budget") = false →
  trip_add body w = (validation_error, w).
Proof.
  intros H. unfold trip_add, try_catch. cbv zeta.
  destruct (truthy (prop body "name")), (truthy (prop body "date")),
    (truthy (prop body "budget")); simpl in H; try discriminate H; reflexivity.
Qed.

Lemma notification_add_guard body w :
  truthy (prop body "message") && truthy (prop body "type") = false →
  notification_add body w
  = (mkResponse 400 (error_body "Message and type are required"), w).
Proof.
  intros H. unfold notification_add, try_catch. cbv zeta.
  destruct (truthy (prop body "message")), (truthy (prop body "type"));
    simpl in H; try discriminate H; reflexivity.
Qed.

(** A conjunction of booleans is false as soon as one conjunct is. *)
Ltac falsy_conjunct H :=
  rewrite ?H; simpl; rewrite ?andb_false_r; reflexivity.

(** C6: a trip-add request without [name], [date] or [budget], and a
    notification-add request without [message] or [type], is answered 400 with
    the validation error, and the world (so every collection) is unchanged. *)
Theorem add_missing_field_rejected (body : Body) (w : World) :
  (body !! "name" = None ∨ body !! "date" = None ∨ body !! "budget" = None →
   trip_add body w = (mkResponse 400 (error_body "All fields are required"), w))
  ∧ (body !! "message" = None ∨ body !! "type" = None →
     notification_add body w
     = (mkResponse 400 (error_body "Message and type are required"), w)).
Proof.
  split.
  - intros H. apply trip_add_guard.
    destruct H as [H|[H|H]]; apply prop_absent in H; falsy_conjunct H.
  - intros H. apply notification_add_guard.
    destruct H as [H|H]; apply prop_absent in H; falsy_conjunct H.
Qed.

(** With one required field falsy, the answer is the one to the request
    without that field. *)
Lemma guard_as_absent {K} (handler : Body → World → K) (r : K) body key w :
  handler body w = r → handler (delete key body) w = r →
  handler body w = r ∧ handler body w = handler (delete key body) w.
Proof. intros -> ->. done. Qed.

(** C9: the presence checks reject falsy values that are present.  A
    trip-add, notification-add or signup request one of whose required fields
    holds a falsy value gets the 400 validation error, the same answer as the
    request without that field, and the world is unchanged.  The number 0 (a
    [budget] of 0) and the empty string are falsy. *)
Theorem falsy_field_rejected (body : Body) (w : World) (key : string) (v : jsval) :
  truthy v = false → body !! key = Some v →
  (key ∈ ["name"; "date"; "budget"] →
   trip_add body w = (mkResponse 400 (error_body "All fields are required"), w)
   ∧ trip_add body w = trip_add (delete key body) w)
  ∧ (key ∈ ["message"; "type"] →
     notification_add body w
     = (mkResponse 400 (error_body "Message and type are required"), w)
     ∧ notification_add body w = notification_add (delete key body) w)
  ∧ (key ∈ ["firstName"; "lastName"; "email"; "password"] →
     signup body w = (mkResponse 400 (error_body "All fields are required"), w)
     ∧ signup body w = signup (delete key body) w)
  ∧ truthy (JNum 0) = false ∧ truthy (JStr "") = false.
Proof.
  intros Hv H. pose proof (prop_delete body key) as D.
  apply prop_present in H. rewrite <-H in Hv.
  assert (truthy (prop (delete key body) key) = false) as Dv by by rewrite D.
  split; [|split; [|split; [|done]]]; intros Hk; set_unfold.
  - destruct Hk as [->|[->|[->|[]]]];
      apply guard_as_absent; apply trip_add_guard;
      first [falsy_conjunct Hv | falsy_conjunct Dv].
  - destruct Hk as [->|[->|[]]];
      apply guard_as_absent; apply notification_add_guard;
      first [falsy_conjunct Hv | falsy_conjunct Dv].
  - destruct Hk as [->|[->|[->|[->|[]]]]];
      apply guard_as_absent; apply signup_guard;
      first [falsy_conjunct Hv | falsy_conjunct Dv].
Qed.

(** *** Looking a user up by email *)

Lemma find_email_none (l : list User.t) e :
  (∀ v, v ∈ l → User.email v ≠ e) →
  find (λ v, bool_decide (User.email v = e)) l = None.
Proof.
  induction l as [|x l IH]; intros H; simpl; [done|].
  rewrite bool_decide_eq_false_2 by (apply H; left).
  apply IH. intros v Hv. apply H. by right.
Qed.

Lemma find_never {A} (l : list A) : find (λ _, false) l = None.
Proof. by induction l. Qed.

(** With emails unique, the first user with the email of [u] is [u]. *)
Lemma find_email_unique (l : list User.t) u :
  NoDup (User.email <$> l) → u ∈ l →
  find (λ v, bool_decide (User.email v = User.email u)) l = Some u.
Proof.
  induction l as [|x l IH]; intros Hnd Hu; [by apply elem_of_nil in Hu|].
  rewrite fmap_cons in Hnd. apply NoDup_cons in Hnd as [Hx Hnd]. simpl.
  apply elem_of_cons in Hu as [->|Hu].
  - by rewrite bool_decide_eq_true_2.
  - rewrite bool_decide_eq_false_2; [by apply IH|].
    intros E. apply Hx. rewrite E. by apply list_elem_of_fmap_2.
Qed.

Lemma find_email_some (l : list User.t) u :
  u ∈ l → is_Some (find (λ v, bool_decide (User.email v = User.email u)) l).
Proof.
  intros Hu. destruct (find _ l) eqn:E; [by eexists|].
  apply list_elem_of_In in Hu.
  pose proof (find_none _ _ E _ Hu) as F. simpl in F.
  by rewrite bool_decide_eq_true_2 in F.
Qed.

(** *** Login *)

Definition server_error (error : string) : Response :=
  mkResponse 500 (Object [("error", Str "Server error"); ("details", Str error)]).

(** The handler, run on a request whose [email] is a string: the lookup, the
    comparison and the signature decide the answer, and the world stays. *)
Lemma login_string_email body w e :
  prop body "email" = JStr e →
  login body w
  = match find (λ v, bool_decide (User.email v = e)) (users w) with
    | None => (mkResponse 400 (error_body "User not found"), w)
    | Some user =>
        match bcrypt_compare (prop body "password") (User.password user) with
        | Throw error => (server_error error, w)
        | Return false => (mkResponse 400 (error_body "Invalid credentials"), w)
        | Return true =>
            match jwt_sign (Jwt.mkPayload (User._id user) (User.email user))
                           JWT_SECRET "1h" (now w / 1000) with
            | Throw error => (server_error error, w)
            | Return token =>
                (mkResponse 200
                   (Object [("message", Str "Login successful!"); ("token", Str token)]),
                 w)
            end
        end
    end.
Proof.
  intros H. unfold login, try_catch. cbv zeta. rewrite H.
  unfold User_findOne, jwt_sign_now, Date_now, mbind, Async_bind, settle. simpl.
  destruct (find _ _) as [user|]; [|done].
  destruct (bcrypt_compare _ _) as [[]|]; simpl; [|done..].
  by destruct (jwt_sign _ _ _ _).
Qed.

Lemma login_wrong_password body w u :
  NoDup (User.email <$> users w) → u ∈ users w →
  prop body "email" = JStr (User.email u) →
  bcrypt_compare (prop body "password") (User.password u) = Return false →
  login body w = (mkResponse 400 (error_body "Invalid credentials"), w).
Proof.
  intros Hnd Hu He Hc. rewrite (login_string_email _ _ _ He).
  rewrite find_email_unique by done. by rewrite Hc.
Qed.

Lemma login_unknown_email body w e :
  prop body "email" = JStr e → (∀ v, v ∈ users w → User.email v ≠ e) →
  login body w = (mkResponse 400 (error_body "User not found"), w).
Proof.
  intros He Hn. rewrite (login_string_email _ _ _ He).
  by rewrite find_email_none.
Qed.

(** C1, for the requests it holds of: a login whose email is the string [e].
    If no stored user has the email [e], the answer is 400 "User not found".  If the stored user [u] has
    it and [bcrypt.compare] of the submitted password with the stored hash
    resolves to [false], the answer is 400 "Invalid credentials".  If it
    resolves to [true] (and the server holds a secret [key]), the answer is
    200 with the token that signs, under [key], exactly [{ id: u._id, email:
    u.email }], issued now and expiring 3600 seconds later.  The world is
    unchanged in all three cases. *)
Theorem login_outcomes (body : Body) (w : World) (e : string) (u : User.t) (key : string) :
  body !! "email" = Some (JStr e) →
  ((∀ v, v ∈ users w → User.email v ≠ e) →
   login body w = (mkResponse 400 (error_body "User not found"), w))
  ∧ (NoDup (User.email <$> users w) → u ∈ users w → User.email u = e →
     (bcrypt_compare (prop body "password") (User.password u) = Return false →
      login body w = (mkResponse 400 (error_body "Invalid credentials"), w))
     ∧ (bcrypt_compare (prop body "password") (User.password u) = Return true →
        JWT_SECRET = Some key → key ≠ "" →
        login body w
        = (mkResponse 200
             (Object [("message", Str "Login successful!");
                      ("token",
                       Str (jwt_encode
                              (Jwt.mkClaims (Jwt.mkPayload (User._id u) (User.email u))
                                            (now w / 1000) (now w / 1000 + 3600))
                              key))]),
           w))).
Proof.
  intros He. apply prop_present in He. split.
  - by apply login_unknown_email.
  - intros Hnd Hu <-. split.
    + by apply login_wrong_password.
    + intros Hc Hs Hk. rewrite (login_string_email _ _ _ He).
      rewrite find_email_unique, Hc, Hs by done.
      unfold jwt_sign, timespan. simpl. by destruct key.
Qed.

(** C10: login does not check that its fields are present.  Without an
    [email] the lookup finds nobody and the answer is 400 "User not found";
    with the email of a stored user and without a [password], [bcrypt.compare]
    rejects and the handler answers 500 "Server error", not a 400. *)
Theorem login_absent_fields (body : Body) (w : World) (u : User.t) :
  (body !! "email" = None →
   login body w = (mkResponse 400 (error_body "User not found"), w))
  ∧ (NoDup (User.email <$> users w) → u ∈ users w →
     body !! "email" = Some (JStr (User.email u)) → body !! "password" = None →
     ∃ details,
       login body w
       = (mkResponse 500 (Object [("error", Str "Server error"); ("details", Str details)]),
          w)).
Proof.
  split.
  - intros He. apply prop_absent in He.
    unfold login, try_catch. cbv zeta. rewrite He.
    unfold User_findOne, mbind, Async_bind. simpl. by rewrite find_never.
  - intros Hnd Hu He Hp. apply prop_present in He. apply prop_absent in Hp.
    rewrite (login_string_email _ _ _ He), find_email_unique, Hp by done.
    by eexists.
Qed.

(** C3, as the code has it: a login with an unknown email and a login with a
    known email and a password that fails the comparison are both answered
    400, with different messages, "User not found" and "Invalid credentials";
    the two answers are not equal. *)
Theorem login_failures_distinguishable
    (body1 body2 : Body) (w : World) (e : string) (u : User.t) :
  body1 !! "email" = Some (JStr e) → (∀ v, v ∈ users w → User.email v ≠ e) →
  NoDup (User.email <$> users w) → u ∈ users w →
  body2 !! "email" = Some (JStr (User.email u)) →
  bcrypt_compare (prop body2 "password") (User.password u) = Return false →
  (login body1 w).1 = mkResponse 400 (error_body "User not found")
  ∧ (login body2 w).1 = mkResponse 400 (error_body "Invalid credentials")
  ∧ status (login body1 w).1 = status (login body2 w).1
  ∧ (login body1 w).1 ≠ (login body2 w).1.
Proof.
  intros H1 Hn Hnd Hu H2 Hc.
  apply prop_present in H1, H2.
  rewrite (login_unknown_email _ _ _ H1 Hn), (login_wrong_password _ _ _ Hnd Hu H2 Hc).
  by repeat split.
Qed.

(** *** Signup *)

(** The handler, run on a request whose four fields are truthy and whose
    [email] is a string: a user with that email is a conflict. *)
Lemma signup_string_email body w e :
  truthy (prop body "firstName") = true → truthy (prop body "lastName") = true →
  truthy (prop body "password") = true →
  prop body "email" = JStr e → e ≠ "" →
  is_Some (find (λ v, bool_decide (User.email v = e)) (users w)) →
  signup body w = (mkResponse 400 (error_body "Email already registered"), w).
Proof.
  intros Hf Hl Hp He Hne [v Hv]. unfold signup, try_catch. cbv zeta.
  rewrite Hf, Hl, Hp, He, truthy_JStr by done.
  unfold User_findOne, mbind, Async_bind. simpl. by rewrite Hv.
Qed.

(** C4, as the code has it: a signup with the email of a stored user is
    answered 400 and changes nothing, whatever the other fields are.  The
    error is "Email already registered" when the other three fields are
    truthy, and "All fields are required" when one of the four is falsy. *)
Theorem signup_registered_email (body : Body) (w : World) (u : User.t) :
  u ∈ users w → body !! "email" = Some (JStr (User.email u)) →
  (status (signup body w).1 = 400 ∧ (signup body w).2 = w)
  ∧ (truthy (prop body "firstName") && truthy (prop body "lastName")
     && truthy (prop body "password") = true → User.email u ≠ "" →
     signup body w = (mkResponse 400 (error_body "Email already registered"), w))
  ∧ (truthy (prop body "firstName") && truthy (prop body "lastName")
     && truthy (prop body "password") = false →
     signup body w = (mkResponse 400 (error_body "All fields are required"), w)).
Proof.
  intros Hu He. apply prop_present in He.
  assert (truthy (prop body "firstName") && truthy (prop body "lastName")
          && truthy (prop body "password") = true → User.email u ≠ "" →
          signup body w = (mkResponse 400 (error_body "Email already registered"), w))
    as Conflict.
  { intros Ht Hne. apply andb_true_iff in Ht as [Ht Hp].
    apply andb_true_iff in Ht as [Hf Hl].
    by apply signup_string_email with (User.email u), find_email_some. }
  assert (truthy (prop body "firstName") && truthy (prop body "lastName")
          && truthy (prop body "password") = false →
          signup body w = (validation_error, w)) as Invalid.
  { intros Ht. apply signup_guard.
    destruct (truthy (prop body "firstName")), (truthy (prop body "lastName")),
      (truthy (prop body "password")); simpl in *; try discriminate Ht;
      by rewrite ?andb_false_r. }
  split; [|done].
  destruct (truthy (prop body "firstName") && truthy (prop body "lastName")
            && truthy (prop body "password")) eqn:Ht.
  - destruct (decide (User.email u = "")) as [E|E].
    + rewrite signup_guard; [done|].
      rewrite He, E. simpl. by rewrite andb_false_r.
    + by rewrite Conflict.
  - by rewrite Invalid.
Qed.

Lemma requiredString_JStr s : s ≠ "" → requiredString (JStr s) = Some s.
Proof. by destruct s. Qed.

Lemma email_free (l : list User.t) e :
  (∀ v, v ∈ l → User.email v ≠ e) →
  existsb (λ v, bool_decide (User.email v = e)) l = false.
Proof.
  induction l as [|x l IH]; intros H; simpl; [done|].
  rewrite bool_decide_eq_false_2 by (apply H; left).
  apply IH. intros v Hv. apply H. by right.
Qed.

(** The run of a signup whose four fields are non-empty strings and whose
    email is new: one user is appended, under the next id, with the hash as
    password. *)
Lemma signup_new_user (body : Body) (w : World) (f l e p : string) :
  (∀ plain salt, hashSync plain salt ≠ "") →
  prop body "firstName" = JStr f → prop body "lastName" = JStr l →
  prop body "email" = JStr e → prop body "password" = JStr p →
  f ≠ "" → l ≠ "" → e ≠ "" → p ≠ "" →
  (∀ v, v ∈ users w → User.email v ≠ e) →
  signup body w
  = (mkResponse 201 (Object [("message", Str "User registered successfully!")]),
     {| users := users w
                 ++ [User.mk (nextId w) f l e (hashSync p (genSalt 10 (entropy w)).1)];
        trips := trips w; notifications := notifications w;
        nextId := N.succ (nextId w); now := now w;
        entropy := (genSalt 10 (entropy w)).2; outbox := outbox w |}).
Proof.
  intros Hne Hf Hl He Hp Nf Nl Ne Np Hfree.
  unfold signup, try_catch. cbv zeta.
  rewrite Hf, Hl, He, Hp, !truthy_JStr by done.
  unfold User_findOne, bcrypt_hash, new_User, new_ObjectId, User_save,
    mbind, mret, Async_bind, Async_ret.
  rewrite !requiredString_JStr by done. simpl.
  rewrite find_email_none by done.
  destruct (genSalt 10 (entropy w)) as [salt ent]. simpl.
  destruct (hashSync p salt) eqn:Hh; [by apply Hne in Hh|]. simpl.
  by rewrite email_free.
Qed.

(** C2, as the code has it: a signup whose four fields are non-empty strings
    and whose email no stored user has is answered 201 with the fixed message
    and nothing else; the users collection gains exactly one document, with
    the submitted names and email and, as password, the bcrypt hash of the
    submitted password under a salt generated for cost factor 10; the other
    collections are unchanged.  The stored password differs from the
    plaintext as soon as no password is its own hash. *)
Theorem signup_success (body : Body) (w : World) (f l e p : string) :
  (∀ plain salt, hashSync plain salt ≠ "") →
  (∀ plain salt, hashSync plain salt ≠ plain) →
  body !! "firstName" = Some (JStr f) → body !! "lastName" = Some (JStr l) →
  body !! "email" = Some (JStr e) → body !! "password" = Some (JStr p) →
  f ≠ "" → l ≠ "" → e ≠ "" → p ≠ "" →
  (∀ v, v ∈ users w → User.email v ≠ e) →
  ∃ stored,
    signup body w
    = (mkResponse 201 (Object [("message", Str "User registered successfully!")]),
       {| users := users w ++ [User.mk (nextId w) f l e stored];
          trips := trips w; notifications := notifications w;
          nextId := N.succ (nextId w); now := now w;
          entropy := (genSalt 10 (entropy w)).2; outbox := outbox w |})
    ∧ stored = hashSync p (genSalt 10 (entropy w)).1
    ∧ stored ≠ p.
Proof.
  intros Hne Hfix Hf Hl He Hp Nf Nl Ne Np Hfree.
  apply prop_present in Hf, Hl, He, Hp.
  exists (hashSync p (genSalt 10 (entropy w)).1). split; [|done].
  by apply signup_new_user.
Qed.

(** X4: a user who has signed up can log in: with the submitted email and
    password, the login that follows the signup is answered 200 with a token
    for the id the signup assigned and that email. *)
Theorem signup_then_login (body body' : Body) (w : World) (f l e p key : string) :
  (∀ plain salt, hashSync plain salt ≠ "") →
  (∀ plain salt, compareSync plain (hashSync plain salt) = true) →
  NoDup (User.email <$> users w) →
  body !! "firstName" = Some (JStr f) → body !! "lastName" = Some (JStr l) →
  body !! "email" = Some (JStr e) → body !! "password" = Some (JStr p) →
  f ≠ "" → l ≠ "" → e ≠ "" → p ≠ "" →
  (∀ v, v ∈ users w → User.email v ≠ e) →
  body' !! "email" = Some (JStr e) → body' !! "password" = Some (JStr p) →
  JWT_SECRET = Some key → key ≠ "" →
  (login body' (signup body w).2).1
  = mkResponse 200
      (Object [("message", Str "Login successful!");
               ("token",
                Str (jwt_encode
                       (Jwt.mkClaims (Jwt.mkPayload (nextId w) e)
                                     (now w / 1000) (now w / 1000 + 3600))
                       key))]).
Proof.
  intros Hne Hcmp Hnd Hf Hl He Hp Nf Nl Ne Np Hfree He' Hp' Hs Hk.
  apply prop_present in Hf, Hl, He, Hp, He', Hp'.
  rewrite (signup_new_user body w f l e p) by done. simpl.
  set (u := User.mk (nextId w) f l e (hashSync p (genSalt 10 (entropy w)).1)).
  rewrite (login_string_email _ _ e He'). simpl.
  change e with (User.email u) at 1.
  rewrite find_email_unique.
  - rewrite Hp'. simpl. rewrite Hcmp, Hs.
    unfold jwt_sign, timespan. simpl. by destruct key.
  - rewrite fmap_app. apply NoDup_app. split; [done|]. split; [|apply NoDup_singleton].
    intros x (v & -> & Hv)%list_elem_of_fmap E%list_elem_of_singleton.
    by apply (Hfree v).
  - apply elem_of_app. right. by left.
Qed.

(** *** Password reset *)

(** C5: the three outcomes of a password-reset request.  When the identity
    provider rejects the email, and when it gives a link but the relay
    refuses the mail, the answer is 500 "Failed to send reset email" and the
    world is unchanged.  When both succeed, the answer is 200 with the
    confirmation and the link itself, and the mail with the link is sent to
    the email. *)
Theorem reset_password_outcomes (body : Body) (w : World) (link error : string) :
  (generatePasswordResetLink (prop body "email") = Throw error →
   reset_password body w = (mkResponse 500 (error_body "Failed to send reset email"), w))
  ∧ (generatePasswordResetLink (prop body "email") = Return link →
     (deliver
        {| from := EMAIL_USER; to := prop body "email"; subject := "Password Reset";
           text := "Click the following link to reset your password: " +:+ link |}
      = Throw error →
      reset_password body w
      = (mkResponse 500 (error_body "Failed to send reset email"), w))
     ∧ (deliver
          {| from := EMAIL_USER; to := prop body "email"; subject := "Password Reset";
             text := "Click the following link to reset your password: " +:+ link |}
        = Return () →
        reset_password body w
        = (mkResponse 200
             (Object [("message", Str "Password reset email sent!"); ("link", Str link)]),
           set_outbox
             (λ sent, sent ++
                [{| from := EMAIL_USER; to := prop body "email";
                    subject := "Password Reset";
                    text := "Click the following link to reset your password: " +:+ link |}])
             w))).
Proof.
  unfold reset_password, try_catch, sendMail, mbind, Async_bind, settle. cbv zeta.
  split; [by intros ->|]. intros ->. split; by intros ->.
Qed.

(** *** Listing: the sort *)

Lemma Sorted_weaken {A} (R S : relation A) l :
  (∀ a b, R a b → S a b) → Sorted R l → Sorted S l.
Proof.
  intros HRS. induction 1 as [|x l Hl IH Hx]; constructor; [done|].
  destruct Hx; constructor. by apply HRS.
Qed.

Section Sorting.
Context {A : Type} (key : A → Z).

Definition key_le (a b : A) : Prop := (key a ≤ key b)%Z.
Definition key_lt (a b : A) : Prop := (key a < key b)%Z.

#[local] Instance key_le_trans : Transitive key_le.
Proof. unfold key_le. intros a b c. lia. Qed.

Lemma insert_sorted_Permutation x l : insert_sorted key x l ≡ₚ x :: l.
Proof.
  induction l as [|y l IH]; simpl; [done|].
  destruct (key x <=? key y)%Z; [done|].
  rewrite IH. apply Permutation_swap.
Qed.

Lemma sort_asc_Permutation l : sort_asc key l ≡ₚ l.
Proof.
  induction l as [|x l IH]; simpl; [done|].
  unfold sort_asc in *. simpl. by rewrite insert_sorted_Permutation, IH.
Qed.

Lemma insert_sorted_HdRel a x l :
  key_le a x → HdRel key_le a l → HdRel key_le a (insert_sorted key x l).
Proof.
  intros Hax Hal. destruct l as [|y l]; simpl; [by constructor|].
  destruct (key x <=? key y)%Z; constructor; [done|].
  by inversion Hal.
Qed.

Lemma insert_sorted_Sorted x l :
  Sorted key_le l → Sorted key_le (insert_sorted key x l).
Proof.
  induction 1 as [|y l Hl IH Hy]; simpl; [by repeat constructor|].
  destruct (Z.leb_spec (key x) (key y)) as [Hxy|Hxy].
  - constructor; [by constructor|]. by constructor.
  - constructor; [done|]. apply insert_sorted_HdRel; [|done].
    unfold key_le. lia.
Qed.

Lemma sort_asc_Sorted l : Sorted key_le (sort_asc key l).
Proof.
  induction l as [|x l IH]; [constructor|].
  by apply insert_sorted_Sorted.
Qed.

(** In a list whose keys increase strictly, the key determines the element. *)
Lemma key_lt_sorted_inj l x y :
  StronglySorted key_lt l → x ∈ l → y ∈ l → key x = key y → x = y.
Proof.
  unfold key_lt. induction 1 as [|z l Hl IH Hz]; intros Hx Hy E.
  { by apply elem_of_nil in Hx. }
  rewrite Forall_forall in Hz.
  apply elem_of_cons in Hx as [->|Hx], Hy as [->|Hy]; [done| | |by apply IH].
  - apply Hz in Hy. lia.
  - apply Hz in Hx. lia.
Qed.

Lemma Sorted_key_lt_le l : Sorted key_lt l → Sorted key_le l.
Proof.
  apply Sorted_weaken. unfold key_lt, key_le. intros a b. lia.
Qed.

#[local] Instance key_lt_trans : Transitive key_lt.
Proof. unfold key_lt. intros a b c. lia. Qed.

(** Whatever the stored order, the sort of documents with pairwise different
    keys is their strictly ascending arrangement. *)
Lemma sort_asc_unique l sorted :
  Sorted key_lt sorted → l ≡ₚ sorted → sort_asc key l = sorted.
Proof.
  intros Hs Hp. apply (Sorted_unique_strong key_le).
  - intros x y Hx Hy Hxy Hyx.
    rewrite sort_asc_Permutation, Hp in Hx.
    apply (key_lt_sorted_inj sorted);
      [apply Sorted_StronglySorted; [apply _|done]|done..|].
    unfold key_le in *. lia.
  - apply sort_asc_Sorted.
  - by apply Sorted_key_lt_le.
  - by rewrite sort_asc_Permutation.
Qed.

End Sorting.

(** C7: [GET /trip] answers 200 with all stored trips in ascending order of
    [date]: the array is a permutation of the collection and is sorted; it is
    empty when the collection is; and three trips with dates D1 < D2 < D3 are
    listed in that order however they are stored.  The world is unchanged. *)
Theorem trip_list_sorted (w : World) (t1 t2 t3 : Trip.t) :
  ∃ l,
    trip_list w = (mkResponse 200 (TripArray l), w)
    ∧ l ≡ₚ trips w
    ∧ Sorted (λ a b, Trip.date a ≤ Trip.date b)%Z l
    ∧ (trips w = [] → l = [])
    ∧ ((Trip.date t1 < Trip.date t2 < Trip.date t3)%Z →
       trips w ≡ₚ [t1; t2; t3] → l = [t1; t2; t3]).
Proof.
  exists (sort_asc Trip.date (trips w)). split; [done|].
  split; [apply sort_asc_Permutation|].
  split; [apply sort_asc_Sorted|].
  split; [by intros ->|].
  intros [H12 H23] Hp. apply sort_asc_unique; [|done].
  repeat constructor; unfold key_lt; done.
Qed.

(** X2: [GET /notification] answers 200 with all stored notifications, the most
    recent first: of two notifications stored in the order of their creation,
    the second is listed first. *)
Theorem notification_list_sorted (w : World) (n1 n2 : Notification.t) :
  ∃ l,
    notification_list w = (mkResponse 200 (NotificationArray l), w)
    ∧ l ≡ₚ notifications w
    ∧ Sorted (λ a b, Notification.createdAt b ≤ Notification.createdAt a)%Z l
    ∧ ((Notification.createdAt n1 < Notification.createdAt n2)%Z →
       notifications w = [n1; n2] → l = [n2; n1]).
Proof.
  exists (sort_desc Notification.createdAt (notifications w)). split; [done|].
  split; [apply sort_asc_Permutation|].
  split.
  - eapply Sorted_weaken; [|apply sort_asc_Sorted]. unfold key_le. intros a b. lia.
  - intros H ->. apply sort_asc_unique; [|apply Permutation_swap].
    repeat constructor. unfold key_lt. lia.
Qed.

(** X3: a trip-add request whose fields are truthy and cast to the schema types
    is answered 201 with the created trip, which is appended to the
    collection under a fresh id. *)
Theorem trip_add_success (body : Body) (w : World) n d b :
  truthy (prop body "name") = true → truthy (prop body "date") = true →
  truthy (prop body "budget") = true →
  requiredString (prop body "name") = Some n →
  requiredDate (prop body "date") = Some d →
  requiredNumber (prop body "budget") = Some b →
  trip_add body w
  = (mkResponse 201
       (Object [("message", Str "Trip added successfully!");
                ("trip", TripDoc (Trip.mk (nextId w) n d b))]),
     set_trips (λ l, l ++ [Trip.mk (nextId w) n d b]) (set_nextId N.succ w)).
Proof.
  intros Tn Td Tb Hn Hd Hb. unfold trip_add, try_catch. cbv zeta.
  rewrite Tn, Td, Tb.
  unfold new_Trip, new_ObjectId, Trip_save, mbind, mret, Async_bind, Async_ret.
  by rewrite Hn, Hd, Hb.
Qed.

(** Every string of 24 hexadecimal digits is an id. *)
Lemma hex_value_total s acc :
  Forall (λ c, is_Some (hex_digit c)) (list_ascii_of_string s) →
  is_Some (hex_value s acc).
Proof.
  revert acc. induction s as [|c s IH]; intros acc H; simpl; [by eexists|].
  apply Forall_cons in H as [[d Hd] H]. rewrite Hd. simpl. by apply IH.
Qed.

Lemma castObjectId_hex24 id :
  String.length id = 24 →
  Forall (λ c, is_Some (hex_digit c)) (list_ascii_of_string id) →
  is_Some (castObjectId id).
Proof.
  intros Hlen Hhex. unfold castObjectId. rewrite decide_True by done.
  by apply hex_value_total.
Qed.

(** *** Deleting by id *)

Lemma find_id_none {A} (id : A → ObjectId) oid (l : list A) :
  (∀ x, x ∈ l → id x ≠ oid) →
  remove_first (λ x, bool_decide (id x = oid)) l = l.
Proof.
  induction l as [|x l IH]; intros H; simpl; [done|].
  rewrite bool_decide_eq_false_2 by (apply H; left).
  f_equal. apply IH. intros y Hy. apply H. by right.
Qed.

(** With ids unique, removing the first document with the id of [x] removes
    [x] and nothing else. *)
Lemma remove_first_unique {A} (id : A → ObjectId) (l1 l2 : list A) x :
  NoDup (id <$> l1 ++ x :: l2) →
  remove_first (λ y, bool_decide (id y = id x)) (l1 ++ x :: l2) = l1 ++ l2.
Proof.
  induction l1 as [|y l1 IH]; simpl; intros Hnd.
  - by rewrite bool_decide_eq_true_2.
  - apply NoDup_cons in Hnd as [Hy Hnd].
    rewrite bool_decide_eq_false_2; [by rewrite IH|].
    intros E. apply Hy. rewrite E. apply list_elem_of_fmap_2.
    apply elem_of_app. right. left.
Qed.

(** C8, as the code has it.  An id that Mongoose casts to an [ObjectId]:
    deleting a trip (a notification) by it is answered 200; when no stored
    document has the id the world is unchanged, and when the document [t]
    ([n]) has it, exactly that document leaves its collection and everything
    else stays.  An id that does not cast: the handler answers 500 and the
    world is unchanged. *)
Theorem delete_by_id (id : string) (w : World) (oid : ObjectId)
    (ts1 ts2 : list Trip.t) (t : Trip.t)
    (ns1 ns2 : list Notification.t) (n : Notification.t) :
  (castObjectId id = Some oid →
   ((trip_delete id w).1
    = mkResponse 200 (Object [("message", Str "Trip deleted successfully!")])
    ∧ ((∀ x, x ∈ trips w → Trip._id x ≠ oid) → (trip_delete id w).2 = w)
    ∧ (NoDup (Trip._id <$> trips w) → trips w = ts1 ++ t :: ts2 → Trip._id t = oid →
       (trip_delete id w).2 = set_trips (λ _, ts1 ++ ts2) w))
   ∧ ((notification_delete id w).1
      = mkResponse 200 (Object [("message", Str "Notification deleted successfully!")])
      ∧ ((∀ x, x ∈ notifications w → Notification._id x ≠ oid) →
         (notification_delete id w).2 = w)
      ∧ (NoDup (Notification._id <$> notifications w) →
         notifications w = ns1 ++ n :: ns2 → Notification._id n = oid →
         (notification_delete id w).2 = set_notifications (λ _, ns1 ++ ns2) w)))
  ∧ (castObjectId id = None →
     trip_delete id w = (mkResponse 500 (error_body "Error deleting trip"), w)
     ∧ notification_delete id w
       = (mkResponse 500 (error_body "Error deleting notification"), w)).
Proof.
  unfold trip_delete, notification_delete, try_catch,
    Trip_findByIdAndDelete, Notification_findByIdAndDelete, mbind, Async_bind.
  split; intros ->; [|done]. simpl. unfold set_trips, set_notifications.
  split; (split; [done|]); split.
  - intros H. rewrite find_id_none by done. by destruct w.
  - intros Hnd E <-. rewrite E in Hnd |- *. by rewrite remove_first_unique.
  - intros H. rewrite find_id_none by done. by destruct w.
  - intros Hnd E <-. rewrite E in Hnd |- *. by rewrite remove_first_unique.
Qed.

(** *** The invariant of the world

    Emails are unique among the users, ids are unique among all documents,
    and every id in use is below the next one to be assigned.  Every handler
    keeps this, on each of its paths, the [catch] included. *)

Definition ids (w : World) : list ObjectId :=
  (User._id <$> users w) ++ (Trip._id <$> trips w)
  ++ (Notification._id <$> notifications w).

Record wf (w : World) : Prop := mk_wf
  { wf_emails : NoDup (User.email <$> users w);
    wf_ids : NoDup (ids w);
    wf_below : Forall (λ i, (i < nextId w)%N) (ids w) }.

(** An id that no document has and that the supply has passed. *)
Definition fresh (w : World) (i : ObjectId) : Prop :=
  (i ∉ ids w) ∧ (i < nextId w)%N.

(** [triple P m Q]: from a world in [P], the computation [m] either returns
    [a] in a world in [Q a], or throws in a world that satisfies the
    invariant. *)
Definition triple {A} (P : World → Prop) (m : Async A) (Q : A → World → Prop) : Prop :=
  ∀ w, P w →
    match m w with
    | (Return a, w') => Q a w'
    | (Throw _, w') => wf w'
    end.

Lemma triple_ret {A} (P : World → Prop) (a : A) (Q : A → World → Prop) :
  (∀ w, P w → Q a w) → triple P (mret a) Q.
Proof. intros H w Hw. by apply H. Qed.

Lemma triple_bind {A B} (P : World → Prop) (m : Async A) (R : A → World → Prop)
    (f : A → Async B) (Q : B → World → Prop) :
  triple P m R → (∀ a, triple (R a) (f a) Q) → triple P (m ≫= f) Q.
Proof.
  intros Hm Hf w Hw. specialize (Hm w Hw).
  unfold mbind, Async_bind. destruct (m w) as [[a|e] w']; [|done].
  by apply Hf.
Qed.

Lemma triple_throw {A} (P : World → Prop) e (Q : A → World → Prop) :
  (∀ w, P w → wf w) → triple P (throw e) Q.
Proof. intros H w Hw. by apply H. Qed.

Lemma triple_settle {A} (o : outcome A) : triple wf (settle o) (λ _, wf).
Proof. intros w Hw. unfold settle. by destruct o. Qed.

Lemma triple_weaken {A} (P P' : World → Prop) (m : Async A) (Q Q' : A → World → Prop) :
  (∀ w, P' w → P w) → (∀ a w, Q a w → Q' a w) → triple P m Q → triple P' m Q'.
Proof.
  intros HP HQ Hm w Hw. specialize (Hm w (HP w Hw)).
  destruct (m w) as [[a|e] w']; eauto.
Qed.

Lemma triple_try_catch (P : World → Prop) body handler w :
  triple P body (λ _, wf) → P w → wf (try_catch body handler w).2.
Proof.
  intros Hb Hw. specialize (Hb w Hw). unfold try_catch.
  by destruct (body w) as [[r|e] w'].
Qed.

(** The invariant does not read the clock, the entropy or the outbox. *)
Lemma wf_set_entropy f w : wf w → wf (set_entropy f w).
Proof. by intros [? ? ?]. Qed.

Lemma wf_set_outbox f w : wf w → wf (set_outbox f w).
Proof. by intros [? ? ?]. Qed.

Lemma wf_next w : wf w → wf (set_nextId N.succ w) ∧ fresh (set_nextId N.succ w) (nextId w).
Proof.
  intros [He Hi Hb]. split; [split; [done..|]|split].
  - eapply Forall_impl; [exact Hb|]. simpl. lia.
  - intros Hin. rewrite Forall_forall in Hb. apply Hb in Hin. lia.
  - simpl. lia.
Qed.

Lemma ids_fresh_snoc (before after : list ObjectId) i :
  NoDup (before ++ after) → i ∉ before ++ after → NoDup (before ++ i :: after).
Proof.
  intros Hnd Hi. apply NoDup_app in Hnd as (Hb & Hba & Ha).
  apply not_elem_of_app in Hi as [Hib Hia].
  apply NoDup_app. split; [done|]. split; [|by apply NoDup_cons].
  intros x Hx [->|Hx']%elem_of_cons; [done|]. by apply (Hba x).
Qed.

Lemma wf_add_user w u :
  wf w → fresh w (User._id u) → (∀ v, v ∈ users w → User.email v ≠ User.email u) →
  wf (set_users (λ l, l ++ [u]) w).
Proof.
  intros [He Hi Hb] [Hu Hlt] Hfree. unfold ids in *. split; simpl.
  - rewrite fmap_app. apply NoDup_app. split; [done|]. split; [|apply NoDup_singleton].
    intros x (v & -> & Hv)%list_elem_of_fmap E%list_elem_of_singleton.
    by apply (Hfree v).
  - unfold ids. simpl. rewrite fmap_app, <-app_assoc. simpl. by apply ids_fresh_snoc.
  - unfold ids. simpl. rewrite fmap_app, <-app_assoc. simpl.
    apply Forall_app in Hb as [Hb1 Hb2]. apply Forall_app. split; [done|].
    by apply Forall_cons.
Qed.

Lemma wf_add_trip w t :
  wf w → fresh w (Trip._id t) → wf (set_trips (λ l, l ++ [t]) w).
Proof.
  intros [He Hi Hb] [Hu Hlt]. unfold ids in *. split; simpl; [done|..].
  - unfold ids. simpl. rewrite fmap_app, <-!app_assoc. simpl.
    rewrite app_assoc. apply ids_fresh_snoc; by rewrite <-app_assoc.
  - unfold ids. simpl. rewrite fmap_app, <-!app_assoc. simpl.
    rewrite !Forall_app in Hb |- *. destruct Hb as (? & ? & ?).
    repeat split; [done..|]. by apply Forall_cons.
Qed.

Lemma wf_add_notification w n :
  wf w → fresh w (Notification._id n) → wf (set_notifications (λ l, l ++ [n]) w).
Proof.
  intros [He Hi Hb] [Hu Hlt]. unfold ids in *. split; simpl; [done|..].
  - unfold ids. simpl. rewrite fmap_app, !app_assoc.
    apply (ids_fresh_snoc _ []); by rewrite app_nil_r, <-!app_assoc.
  - unfold ids. simpl. rewrite fmap_app.
    rewrite !Forall_app in Hb |- *. destruct Hb as (? & ? & ?).
    repeat split; [done..|]. apply Forall_app. split; [done|].
    by apply Forall_singleton.
Qed.

Lemma remove_first_sublist {A} (p : A → bool) l : remove_first p l `sublist_of` l.
Proof.
  induction l as [|x l IH]; simpl; [done|].
  destruct (p x); [by apply sublist_cons | by apply sublist_skip].
Qed.

Lemma wf_sublist w w' :
  wf w → users w' = users w → nextId w' = nextId w → ids w' `sublist_of` ids w → wf w'.
Proof.
  intros [He Hi Hb] Hu Hn Hs. split.
  - by rewrite Hu.
  - by eapply sublist_NoDup.
  - rewrite Hn. rewrite Forall_forall in Hb |- *. intros i Hin.
    apply Hb. by eapply elem_of_sublist.
Qed.

Lemma wf_remove_trip p w : wf w → wf (set_trips (remove_first p) w).
Proof.
  intros Hw. apply (wf_sublist w); [done..|]. unfold ids. simpl.
  apply sublist_app; [done|]. apply sublist_app; [|done].
  apply fmap_sublist, remove_first_sublist.
Qed.

Lemma wf_remove_notification p w : wf w → wf (set_notifications (remove_first p) w).
Proof.
  intros Hw. apply (wf_sublist w); [done..|]. unfold ids. simpl.
  apply sublist_app; [done|]. apply sublist_app; [done|].
  apply fmap_sublist, remove_first_sublist.
Qed.

(** What each call of the handlers guarantees. *)

Lemma triple_new_ObjectId : triple wf new_ObjectId (λ i w, wf w ∧ fresh w i).
Proof. intros w Hw. by apply wf_next. Qed.

Lemma triple_Date_now (P : World → Prop) : triple P Date_now (λ _, P).
Proof. by intros w Hw. Qed.

Lemma triple_User_findOne v : triple wf (User_findOne v) (λ _, wf).
Proof. intros w Hw. unfold User_findOne. by destruct (emailQuery v). Qed.

Lemma triple_bcrypt_hash s rounds : triple wf (bcrypt_hash s rounds) (λ _, wf).
Proof.
  intros w Hw. unfold bcrypt_hash. destruct s; try done.
  destruct (genSalt rounds (entropy w)). by apply wf_set_entropy.
Qed.

Lemma triple_jwt_sign_now p secret expiresIn :
  triple wf (jwt_sign_now p secret expiresIn) (λ _, wf).
Proof.
  unfold jwt_sign_now. eapply triple_bind; [apply triple_Date_now|].
  intros ms. apply triple_settle.
Qed.

Lemma triple_sendMail m : triple wf (sendMail m) (λ _, wf).
Proof.
  intros w Hw. unfold sendMail. destruct (deliver m); [|done].
  by apply wf_set_outbox.
Qed.

Lemma triple_new_User firstName lastName email password :
  triple wf (new_User firstName lastName email password)
         (λ doc w, wf w ∧ ∀ u, doc = Some u → fresh w (User._id u)).
Proof.
  unfold new_User. eapply triple_bind; [apply triple_new_ObjectId|].
  intros i. apply triple_ret. intros w [Hw Hi]. split; [done|]. intros u Hu.
  repeat apply bind_Some in Hu as (? & _ & Hu). by simplify_eq.
Qed.

Lemma triple_new_Trip name date budget :
  triple wf (new_Trip name date budget)
         (λ doc w, wf w ∧ ∀ t, doc = Some t → fresh w (Trip._id t)).
Proof.
  unfold new_Trip. eapply triple_bind; [apply triple_new_ObjectId|].
  intros i. apply triple_ret. intros w [Hw Hi]. split; [done|]. intros t Ht.
  repeat apply bind_Some in Ht as (? & _ & Ht). by simplify_eq.
Qed.

Lemma triple_new_Notification message type :
  triple wf (new_Notification message type)
         (λ doc w, wf w ∧ ∀ n, doc = Some n → fresh w (Notification._id n)).
Proof.
  unfold new_Notification. eapply triple_bind; [apply triple_new_ObjectId|].
  intros i. eapply triple_bind; [apply triple_Date_now|].
  intros createdAt. apply triple_ret. intros w [Hw Hi]. split; [done|].
  intros n Hn. repeat apply bind_Some in Hn as (? & _ & Hn). by simplify_eq.
Qed.

Lemma email_free_inv (l : list User.t) e :
  existsb (λ v, bool_decide (User.email v = e)) l = false →
  ∀ v, v ∈ l → User.email v ≠ e.
Proof.
  induction l as [|x l IH]; simpl; intros H v Hv; [by apply elem_of_nil in Hv|].
  apply orb_false_iff in H as [Hx Hl]. apply bool_decide_eq_false in Hx.
  apply elem_of_cons in Hv as [->|Hv]; [done|]. by apply IH.
Qed.

Lemma triple_User_save doc :
  triple (λ w, wf w ∧ ∀ u, doc = Some u → fresh w (User._id u))
         (User_save doc) (λ _, wf).
Proof.
  intros w [Hw Hf]. unfold User_save. destruct doc as [u|]; [|done].
  destruct (existsb _ _) eqn:E; [done|].
  apply wf_add_user; [done | by apply Hf | by apply email_free_inv].
Qed.

Lemma triple_Trip_save doc :
  triple (λ w, wf w ∧ ∀ t, doc = Some t → fresh w (Trip._id t))
         (Trip_save doc) (λ _, wf).
Proof.
  intros w [Hw Hf]. unfold Trip_save. destruct doc as [t|]; [|done].
  apply wf_add_trip; [done | by apply Hf].
Qed.

Lemma triple_Notification_save doc :
  triple (λ w, wf w ∧ ∀ n, doc = Some n → fresh w (Notification._id n))
         (Notification_save doc) (λ _, wf).
Proof.
  intros w [Hw Hf]. unfold Notification_save. destruct doc as [n|]; [|done].
  apply wf_add_notification; [done | by apply Hf].
Qed.

Lemma triple_Trip_findByIdAndDelete id :
  triple wf (Trip_findByIdAndDelete id) (λ _, wf).
Proof.
  intros w Hw. unfold Trip_findByIdAndDelete. destruct (castObjectId id); [|done].
  by apply wf_remove_trip.
Qed.

Lemma triple_Notification_findByIdAndDelete id :
  triple wf (Notification_findByIdAndDelete id) (λ _, wf).
Proof.
  intros w Hw. unfold Notification_findByIdAndDelete.
  destruct (castObjectId id); [|done]. by apply wf_remove_notification.
Qed.

(** Steps through a handler body, one call at a time. *)
Ltac triple_step :=
  cbv beta;
  first
    [ apply triple_ret; done
    | eapply triple_bind;
      [ first
          [ apply triple_User_findOne | apply triple_bcrypt_hash
          | apply triple_new_User | apply triple_User_save
          | apply triple_new_Trip | apply triple_Trip_save
          | apply triple_new_Notification | apply triple_Notification_save
          | apply triple_Trip_findByIdAndDelete
          | apply triple_Notification_findByIdAndDelete
          | apply triple_jwt_sign_now | apply triple_sendMail
          | apply triple_settle ]
      | intros ? ] ].

Lemma signup_wf body w : wf w → wf (signup body w).2.
Proof.
  apply (triple_try_catch wf). cbv zeta.
  destruct (negb _ || _ || _ || _); [triple_step|].
  triple_step. destruct a; repeat triple_step.
Qed.

Lemma login_wf body w : wf w → wf (login body w).2.
Proof.
  apply (triple_try_catch wf). cbv zeta.
  triple_step. destruct a; [|triple_step].
  triple_step. destruct (negb a); repeat triple_step.
Qed.

Lemma reset_password_wf body w : wf w → wf (reset_password body w).2.
Proof. apply (triple_try_catch wf). cbv zeta. repeat triple_step. Qed.

Lemma trip_add_wf body w : wf w → wf (trip_add body w).2.
Proof.
  apply (triple_try_catch wf). cbv zeta.
  destruct (negb _ || _ || _); repeat triple_step.
Qed.

Lemma notification_add_wf body w : wf w → wf (notification_add body w).2.
Proof.
  apply (triple_try_catch wf). cbv zeta.
  destruct (negb _ || _); repeat triple_step.
Qed.

Lemma trip_delete_wf id w : wf w → wf (trip_delete id w).2.
Proof. apply (triple_try_catch wf). repeat triple_step. Qed.

Lemma notification_delete_wf id w : wf w → wf (notification_delete id w).2.
Proof. apply (triple_try_catch wf). repeat triple_step. Qed.

(** X1: every route keeps the invariant, and so does every sequence of requests;
    a world without documents satisfies it.  So in every world that the
    server reaches from an empty database, emails and ids are unique. *)
Theorem serve_preserves_wf (requests : list Request) (w : World) :
  (users w = [] → trips w = [] → notifications w = [] → wf w)
  ∧ (wf w → wf (serve requests w)).
Proof.
  split.
  - intros Hu Ht Hn. split; unfold ids; rewrite ?Hu, ?Ht, ?Hn; simpl; constructor.
  - revert w. induction requests as [|request requests IH]; intros w Hw; [done|].
    simpl. apply IH. destruct request; simpl;
      eauto using signup_wf, login_wf, reset_password_wf, trip_add_wf,
        notification_add_wf, trip_delete_wf, notification_delete_wf.
Qed.

(** *** What each route can do to the world

    The outcomes of each handler, path by path: the answer it sends and the
    world it leaves.  The theorems on [handle] below are read off these. *)

(** The collections and the outbox of [w'] are those of [w]. *)
Definition same_store (w w' : World) : Prop :=
  users w' = users w ∧ trips w' = trips w
  ∧ notifications w' = notifications w ∧ outbox w' = outbox w.

Lemma same_store_refl w : same_store w w.
Proof. done. Qed.

(** Runs a handler through every branch of its calls. *)
Ltac run_all_paths :=
  unfold try_catch, User_findOne, bcrypt_hash, new_User, new_Trip, new_Notification,
    jwt_sign_now, new_ObjectId, Date_now, User_save, Trip_save, Notification_save,
    Trip_findByIdAndDelete, Notification_findByIdAndDelete, sendMail,
    settle, throw, mbind, mret, Async_bind, Async_ret, same_store;
  cbv zeta;
  repeat case_match; simplify_eq; simpl in *; simplify_eq.

Lemma signup_cases body w :
  signup body w = (validation_error, w)
  ∨ signup body w = (mkResponse 400 (error_body "Email already registered"), w)
  ∨ (∃ details,
       (signup body w).1
       = mkResponse 500 (Object [("error", Str "Error adding user"); ("details", Str details)])
       ∧ same_store w (signup body w).2)
  ∨ (∃ u,
       (signup body w).1
       = mkResponse 201 (Object [("message", Str "User registered successfully!")])
       ∧ users (signup body w).2 = users w ++ [u]
       ∧ trips (signup body w).2 = trips w
       ∧ notifications (signup body w).2 = notifications w
       ∧ outbox (signup body w).2 = outbox w).
Proof. unfold signup. run_all_paths; eauto 10. Qed.

Lemma login_cases body w :
  (login body w).2 = w
  ∧ ((login body w).1 = mkResponse 400 (error_body "User not found")
     ∨ (login body w).1 = mkResponse 400 (error_body "Invalid credentials")
     ∨ (∃ details, (login body w).1 = server_error details)
     ∨ (∃ token,
          (login body w).1
          = mkResponse 200
              (Object [("message", Str "Login successful!"); ("token", Str token)]))).
Proof. unfold login, server_error. run_all_paths; eauto 10. Qed.

Lemma reset_password_cases body w :
  reset_password body w = (mkResponse 500 (error_body "Failed to send reset email"), w)
  ∨ (∃ link m,
       to m = prop body "email"
       ∧ reset_password body w
         = (mkResponse 200
              (Object [("message", Str "Password reset email sent!"); ("link", Str link)]),
            set_outbox (λ sent, sent ++ [m]) w)).
Proof.
  unfold reset_password. run_all_paths; [|by left..].
  right. eexists _, _. split; [|reflexivity]. reflexivity.
Qed.

Lemma trip_add_cases body w :
  trip_add body w = (validation_error, w)
  ∨ ((trip_add body w).1 = mkResponse 500 (error_body "Error adding trip")
     ∧ same_store w (trip_add body w).2)
  ∨ (∃ t,
       (trip_add body w).1
       = mkResponse 201
           (Object [("message", Str "Trip added successfully!"); ("trip", TripDoc t)])
       ∧ users (trip_add body w).2 = users w
       ∧ trips (trip_add body w).2 = trips w ++ [t]
       ∧ notifications (trip_add body w).2 = notifications w
       ∧ outbox (trip_add body w).2 = outbox w).
Proof. unfold trip_add. run_all_paths; eauto 10. Qed.

Lemma notification_add_cases body w :
  notification_add body w
  = (mkResponse 400 (error_body "Message and type are required"), w)
  ∨ (∃ details,
       (notification_add body w).1
       = mkResponse 500
           (Object [("error", Str "Error adding notification"); ("details", Str details)])
       ∧ same_store w (notification_add body w).2)
  ∨ (∃ n,
       (notification_add body w).1
       = mkResponse 201
           (Object [("message", Str "Notification added successfully!");
                    ("notification", NotificationDoc n)])
       ∧ users (notification_add body w).2 = users w
       ∧ trips (notification_add body w).2 = trips w
       ∧ notifications (notification_add body w).2 = notifications w ++ [n]
       ∧ outbox (notification_add body w).2 = outbox w).
Proof. unfold notification_add. run_all_paths; eauto 10. Qed.

Lemma trip_delete_cases id w :
  trip_delete id w = (mkResponse 500 (error_body "Error deleting trip"), w)
  ∨ (∃ oid,
       castObjectId id = Some oid
       ∧ trip_delete id w
         = (mkResponse 200 (Object [("message", Str "Trip deleted successfully!")]),
            set_trips (remove_first (λ t, bool_decide (Trip._id t = oid))) w)).
Proof. unfold trip_delete. run_all_paths; eauto 10. Qed.

Lemma notification_delete_cases id w :
  notification_delete id w
  = (mkResponse 500 (error_body "Error deleting notification"), w)
  ∨ (∃ oid,
       castObjectId id = Some oid
       ∧ notification_delete id w
         = (mkResponse 200 (Object [("message", Str "Notification deleted successfully!")]),
            set_notifications (remove_first (λ n, bool_decide (Notification._id n = oid))) w)).
Proof. unfold notification_delete. run_all_paths; eauto 10. Qed.

(** X5: login and the two listings never change the world, whatever the
    request and whichever path they take.  A password reset has two ways to
    end and no third: it answers 500 and changes nothing; or it answers 200
    with a link that the identity provider gave, and exactly one mail went to
    the relay, from [EMAIL_USER] to the request's [email], with that link in
    its text.  So a 200 is never answered without the mail, and no mail goes
    out behind a 500. *)
Theorem read_only_routes (body : Body) (w : World) :
  (login body w).2 = w
  ∧ (trip_list w).2 = w
  ∧ (notification_list w).2 = w
  ∧ (reset_password body w
     = (mkResponse 500 (error_body "Failed to send reset email"), w)
     ∨ ∃ link,
         generatePasswordResetLink (prop body "email") = Return link
         ∧ reset_password body w
           = (mkResponse 200
                (Object [("message", Str "Password reset email sent!");
                         ("link", Str link)]),
              set_outbox
                (λ sent, sent ++
                   [{| from := EMAIL_USER; to := prop body "email";
                       subject := "Password Reset";
                       text := "Click the following link to reset your password: "
                               +:+ link |}])
                w)).
Proof.
  split; [apply login_cases|]. split; [done|]. split; [done|].
  unfold reset_password, try_catch, sendMail, mbind, Async_bind, settle. cbv zeta.
  destruct (generatePasswordResetLink (prop body "email")) as [link|e]; [|by left].
  simpl. destruct (deliver _) as [[]|e]; [|by left].
  right. by exists link.
Qed.

(** The collection a route writes to, if any. *)
Inductive Collection : Type := Users | Trips | Notifications | Outbox.

Definition writes (request : Request) : option Collection :=
  match request with
  | PostSignup _ => Some Users
  | PostTripAdd _ | DeleteTrip _ => Some Trips
  | PostNotificationAdd _ | DeleteNotification _ => Some Notifications
  | PostResetPassword _ => Some Outbox
  | PostLogin _ | GetTrip | GetNotification => None
  end.

Definition unchanged (c : Collection) (w w' : World) : Prop :=
  match c with
  | Users => users w' = users w
  | Trips => trips w' = trips w
  | Notifications => notifications w' = notifications w
  | Outbox => outbox w' = outbox w
  end.

(** X6: a request leaves every collection other than its own untouched, on
    every path: a signup never touches trips or notifications, a trip route
    never touches users or notifications, and so on; only a password reset
    sends mail. *)
Theorem handle_frame (request : Request) (c : Collection) (w : World) :
  writes request ≠ Some c → unchanged c w (handle request w).2.
Proof.
  intros Hc. destruct request as [body|body|body|body| |id|body| |id]; simpl in *.
  - destruct (signup_cases body w) as [->|[->|[(d & _ & ? & ? & ? & ?)|(u & _ & ? & ? & ? & ?)]]];
      by destruct c.
  - destruct (login_cases body w) as [-> _]. by destruct c.
  - destruct (reset_password_cases body w) as [->|(link & m & _ & ->)]; by destruct c.
  - destruct (trip_add_cases body w) as [->|[(_ & ? & ? & ? & ?)|(t & _ & ? & ? & ? & ?)]];
      by destruct c.
  - by destruct c.
  - destruct (trip_delete_cases id w) as [->|(oid & _ & ->)]; by destruct c.
  - destruct (notification_add_cases body w)
      as [->|[(d & _ & ? & ? & ? & ?)|(n & _ & ? & ? & ? & ?)]]; by destruct c.
  - by destruct c.
  - destruct (notification_delete_cases id w) as [->|(oid & _ & ->)]; by destruct c.
Qed.

(** X7: a request that is answered with an error (status 400 or above)
    persists nothing: the three collections and the outbox are as before. *)
Theorem error_persists_nothing (request : Request) (w : World) :
  (400 ≤ status (handle request w).1)%nat → same_store w (handle request w).2.
Proof.
  destruct request as [body|body|body|body| |id|body| |id]; simpl.
  - destruct (signup_cases body w) as [->|[->|[(d & _ & ?)|(u & -> & _)]]];
      simpl; [done..|lia].
  - destruct (login_cases body w) as [-> _]. done.
  - destruct (reset_password_cases body w) as [->|(link & m & _ & ->)]; simpl; [done|lia].
  - destruct (trip_add_cases body w) as [->|[(_ & ?)|(t & -> & _)]]; simpl; [done..|lia].
  - lia.
  - destruct (trip_delete_cases id w) as [->|(oid & _ & ->)]; simpl; [done|lia].
  - destruct (notification_add_cases body w) as [->|[(d & _ & ?)|(n & -> & _)]];
      simpl; [done..|lia].
  - lia.
  - destruct (notification_delete_cases id w) as [->|(oid & _ & ->)]; simpl; [done|lia].
Qed.

(** Membership in a list of numbers, and equations between booleans, by
    evaluation. *)
Ltac by_compute_mem :=
  match goal with
  | |- _ = _ => vm_compute; reflexivity
  | |- ?P => apply (bool_decide_unpack P); vm_compute; exact I
  end.

(** The statuses a route sends (each [res.status] of its handler; [res.json]
    alone is 200). *)
Definition statuses (request : Request) : list nat :=
  match request with
  | PostSignup _ | PostTripAdd _ | PostNotificationAdd _ => [201; 400; 500]
  | PostLogin _ => [200; 400; 500]
  | PostResetPassword _ | GetTrip | DeleteTrip _ | GetNotification
  | DeleteNotification _ => [200; 500]
  end.

(** Whether a body is an object whose first key is [error]. *)
Definition has_error_key (p : Payload) : bool :=
  match p with
  | Object ((key, _) :: _) => bool_decide (key = "error")
  | _ => false
  end.

(** X8: a route answers with one of the statuses its handler sets and with no
    other, and the body of the answer is an [{ error: ... }] object exactly
    when the status is 400 or above. *)
Theorem handle_status (request : Request) (w : World) :
  status (handle request w).1 ∈ statuses request
  ∧ has_error_key (json (handle request w).1)
    = bool_decide (400 ≤ status (handle request w).1)%nat.
Proof.
  destruct request as [body|body|body|body| |id|body| |id]; simpl.
  - destruct (signup_cases body w) as [->|[->|[(d & -> & _)|(u & -> & _)]]];
      simpl; split; by_compute_mem.
  - destruct (login_cases body w) as [_ [->|[->|[[d ->]|[t ->]]]]];
      simpl; split; by_compute_mem.
  - destruct (reset_password_cases body w) as [->|(link & m & _ & ->)];
      simpl; split; by_compute_mem.
  - destruct (trip_add_cases body w) as [->|[(-> & _)|(t & -> & _)]];
      simpl; split; by_compute_mem.
  - split; by_compute_mem.
  - destruct (trip_delete_cases id w) as [->|(oid & _ & ->)];
      simpl; split; by_compute_mem.
  - destruct (notification_add_cases body w) as [->|[(d & -> & _)|(n & -> & _)]];
      simpl; split; by_compute_mem.
  - split; by_compute_mem.
  - destruct (notification_delete_cases id w) as [->|(oid & _ & ->)];
      simpl; split; by_compute_mem.
Qed.

Lemma handle_users_prefix request w : users w `prefix_of` users (handle request w).2.
Proof.
  destruct request as [body|body|body|body| |id|body| |id];
    try (by rewrite (handle_frame _ Users)).
  simpl. destruct (signup_cases body w) as [->|[->|[(d & _ & -> & _)|(u & _ & -> & _)]]];
    [done..|]. by apply prefix_app_r.
Qed.

Lemma serve_cons request requests w :
  serve (request :: requests) w = serve requests (handle request w).2.
Proof. done. Qed.

Lemma users_only_grow_prefix requests w :
  users w `prefix_of` users (serve requests w).
Proof.
  revert w. induction requests as [|request requests IH]; intros w; [done|].
  rewrite serve_cons. etrans; [apply handle_users_prefix | apply IH].
Qed.

(** X9: no request removes or changes a user: after any sequence of requests
    the users collection starts with the users it had, in the same order, so
    every user that was stored is still stored, unchanged. *)
Theorem users_only_grow (requests : list Request) (w : World) (u : User.t) :
  users w `prefix_of` users (serve requests w)
  ∧ (u ∈ users w → u ∈ users (serve requests w)).
Proof.
  split; [apply users_only_grow_prefix|].
  intros Hu. eapply elem_of_prefix; [exact Hu | apply users_only_grow_prefix].
Qed.

(** X10: a registered email stays taken: whatever requests are served after a
    user was stored, a signup with that user's email is answered 400 and
    stores nothing. *)
Theorem registered_email_stays_taken
    (requests : list Request) (body : Body) (w : World) (u : User.t) :
  u ∈ users w → body !! "email" = Some (JStr (User.email u)) →
  status (signup body (serve requests w)).1 = 400
  ∧ (signup body (serve requests w)).2 = serve requests w.
Proof.
  intros Hu He. apply prop_present in He.
  assert (u ∈ users (serve requests w)) as Hu'
    by (eapply elem_of_prefix; [exact Hu | apply users_only_grow_prefix]).
  destruct (truthy (prop body "firstName") && truthy (prop body "lastName")
            && truthy (prop body "email") && truthy (prop body "password")) eqn:Ht.
  - apply andb_true_iff in Ht as [Ht Hp]. apply andb_true_iff in Ht as [Ht Hm].
    apply andb_true_iff in Ht as [Hf Hl].
    rewrite (signup_string_email _ _ (User.email u)); [done..| |by apply find_email_some].
    intros E. by rewrite He, E in Hm.
  - by rewrite signup_guard.
Qed.

(** *** Edge cases of the handlers *)

(** X11: a signup whose [password] is truthy but not a string (a number, an
    object) passes the presence check and the lookup, and then [bcrypt.hash]
    rejects it: the answer is 500 "Error adding user", not a 400, and the
    world is unchanged. *)
Theorem signup_password_not_a_string (body : Body) (w : World) (e : string) :
  truthy (prop body "firstName") = true → truthy (prop body "lastName") = true →
  body !! "email" = Some (JStr e) → e ≠ "" →
  (∀ v, v ∈ users w → User.email v ≠ e) →
  truthy (prop body "password") = true → typeof (prop body "password") ≠ "string" →
  ∃ details,
    signup body w
    = (mkResponse 500
         (Object [("error", Str "Error adding user"); ("details", Str details)]),
       w).
Proof.
  intros Hf Hl He Ne Hfree Hp Hs. apply prop_present in He.
  unfold signup, try_catch. cbv zeta.
  rewrite Hf, Hl, Hp, He, truthy_JStr by done.
  unfold User_findOne, bcrypt_hash, mbind, Async_bind. simpl.
  rewrite find_email_none by done.
  destruct (prop body "password"); simpl in Hs; first [done | by eexists].
Qed.

(** X12: without a [JWT_SECRET] (unset, or empty) a login with the right
    password cannot be signed: the answer is 500 "Server error", while a
    wrong password is still answered 400. *)
Theorem login_without_secret (body : Body) (w : World) (u : User.t) :
  JWT_SECRET = None ∨ JWT_SECRET = Some "" →
  NoDup (User.email <$> users w) → u ∈ users w →
  body !! "email" = Some (JStr (User.email u)) →
  (bcrypt_compare (prop body "password") (User.password u) = Return true →
   ∃ details, login body w = (server_error details, w))
  ∧ (bcrypt_compare (prop body "password") (User.password u) = Return false →
     login body w = (mkResponse 400 (error_body "Invalid credentials"), w)).
Proof.
  intros Hs Hnd Hu He. apply prop_present in He.
  rewrite (login_string_email _ _ _ He), find_email_unique by done.
  split; intros ->; [|done].
  unfold jwt_sign. destruct Hs as [->| ->]; by eexists.
Qed.

(** X13: a trip-add or notification-add request that passes the presence
    check but whose document does not validate (a date that is no date, a
    budget that is no number, a name that does not cast to a string) is
    answered 500, not 400; nothing is stored, though an id has been used. *)
Theorem add_invalid_document (body : Body) (w : World) :
  (truthy (prop body "name") && truthy (prop body "date")
   && truthy (prop body "budget") = true →
   requiredString (prop body "name") = None ∨ requiredDate (prop body "date") = None
   ∨ requiredNumber (prop body "budget") = None →
   trip_add body w
   = (mkResponse 500 (error_body "Error adding trip"), set_nextId N.succ w))
  ∧ (truthy (prop body "message") && truthy (prop body "type") = true →
     requiredString (prop body "message") = None
     ∨ requiredString (prop body "type") = None →
     ∃ details,
       notification_add body w
       = (mkResponse 500
            (Object [("error", Str "Error adding notification"); ("details", Str details)]),
          set_nextId N.succ w)).
Proof.
  split.
  - intros Ht Hv. unfold trip_add, try_catch. cbv zeta.
    apply andb_true_iff in Ht as [Ht ->]. apply andb_true_iff in Ht as [-> ->].
    unfold new_Trip, new_ObjectId, Trip_save, mbind, mret, Async_bind, Async_ret.
    simpl.
    destruct (requiredString (prop body "name")), (requiredDate (prop body "date")),
      (requiredNumber (prop body "budget")); simpl; try done.
    by destruct Hv as [?|[?|?]].
  - intros Ht Hv. unfold notification_add, try_catch. cbv zeta.
    apply andb_true_iff in Ht as [-> ->].
    unfold new_Notification, new_ObjectId, Date_now, Notification_save,
      mbind, mret, Async_bind, Async_ret.
    simpl.
    destruct (requiredString (prop body "message")), (requiredString (prop body "type"));
      simpl; try by eexists.
    by destruct Hv.
Qed.

(** X14: a notification-add request whose [message] and [type] are truthy and
    cast to strings is answered 201 with the created notification, which is
    appended under a fresh id with the server's clock as [createdAt]; nothing
    in the request sets [createdAt]. *)
Theorem notification_add_success (body : Body) (w : World) m t :
  truthy (prop body "message") = true → truthy (prop body "type") = true →
  requiredString (prop body "message") = Some m →
  requiredString (prop body "type") = Some t →
  notification_add body w
  = (mkResponse 201
       (Object [("message", Str "Notification added successfully!");
                ("notification", NotificationDoc (Notification.mk (nextId w) m t (now w)))]),
     set_notifications (λ l, l ++ [Notification.mk (nextId w) m t (now w)])
                       (set_nextId N.succ w)).
Proof.
  intros Tm Tt Hm Ht. unfold notification_add, try_catch. cbv zeta.
  rewrite Tm, Tt.
  unfold new_Notification, new_ObjectId, Date_now, Notification_save,
    mbind, mret, Async_bind, Async_ret.
  simpl. by rewrite Hm, Ht.
Qed.

(** *** How the routes compose *)

(** The clock moves between requests. *)
Definition set_now (f : Z → Z) (w : World) : World :=
  mkWorld (users w) (trips w) (notifications w) (nextId w) (f (now w)) (entropy w) (outbox w).

Lemma notification_add_run body w m t :
  body !! "message" = Some (JStr m) → body !! "type" = Some (JStr t) →
  m ≠ "" → t ≠ "" →
  notification_add body w
  = (mkResponse 201
       (Object [("message", Str "Notification added successfully!");
                ("notification", NotificationDoc (Notification.mk (nextId w) m t (now w)))]),
     set_notifications (λ l, l ++ [Notification.mk (nextId w) m t (now w)])
                       (set_nextId N.succ w)).
Proof.
  intros Hm Ht Nm Nt. apply prop_present in Hm, Ht.
  unfold notification_add, try_catch. cbv zeta.
  rewrite Hm, Ht, !truthy_JStr by done.
  unfold new_Notification, new_ObjectId, Date_now, Notification_save,
    mbind, mret, Async_bind, Async_ret.
  by rewrite !requiredString_JStr.
Qed.

(** X15: notifications are listed newest first across requests: when a
    notification is added to an empty collection, the clock moves on, and a
    second one is added, the listing is the second, then the first, each with
    the time of its own request as [createdAt]. *)
Theorem notifications_newest_first
    (body1 body2 : Body) (w : World) (later : Z) (m1 t1 m2 t2 : string) :
  notifications w = [] →
  body1 !! "message" = Some (JStr m1) → body1 !! "type" = Some (JStr t1) →
  body2 !! "message" = Some (JStr m2) → body2 !! "type" = Some (JStr t2) →
  m1 ≠ "" → t1 ≠ "" → m2 ≠ "" → t2 ≠ "" →
  (now w < later)%Z →
  (notification_list
     (notification_add body2 (set_now (λ _, later) (notification_add body1 w).2)).2).1
  = mkResponse 200
      (NotificationArray
         [Notification.mk (N.succ (nextId w)) m2 t2 later;
          Notification.mk (nextId w) m1 t1 (now w)]).
Proof.
  intros Hn H1 H1' H2 H2' ? ? ? ? Hlater.
  rewrite (notification_add_run body1 w m1 t1) by done.
  rewrite (notification_add_run body2 _ m2 t2) by done.
  unfold notification_list, try_catch, Notification_find_sort_createdAt,
    mbind, mret, Async_bind, Async_ret.
  simpl. rewrite Hn. unfold sort_desc, sort_asc. simpl.
  destruct (Z.leb_spec (- now w) (- later)); [lia|done].
Qed.

Lemma remove_first_idem {A} (id : A → ObjectId) oid (l : list A) :
  NoDup (id <$> l) →
  remove_first (λ x, bool_decide (id x = oid))
    (remove_first (λ x, bool_decide (id x = oid)) l)
  = remove_first (λ x, bool_decide (id x = oid)) l.
Proof.
  induction l as [|x l IH]; [done|]. intros [Hx Hl]%NoDup_cons. simpl.
  destruct (decide (id x = oid)) as [E|E].
  - rewrite bool_decide_eq_true_2 by done. apply find_id_none.
    intros y Hy Ey. apply Hx. rewrite E, <-Ey. by apply list_elem_of_fmap_2.
  - rewrite bool_decide_eq_false_2 by done. simpl.
    rewrite bool_decide_eq_false_2 by done. by rewrite IH.
Qed.

(** X16: deleting is idempotent: with ids unique, the second of two deletions
    by the same id sends the answer of the first and changes nothing more,
    whether the id matched a document, matched none or is no id at all. *)
Theorem delete_twice (id : string) (w : World) :
  (NoDup (Trip._id <$> trips w) →
   trip_delete id (trip_delete id w).2 = trip_delete id w)
  ∧ (NoDup (Notification._id <$> notifications w) →
     notification_delete id (notification_delete id w).2 = notification_delete id w).
Proof.
  split; intros Hnd.
  - destruct (trip_delete_cases id w) as [E|(oid & Hc & E)]; rewrite E; simpl; [done|].
    destruct (trip_delete_cases id (set_trips (remove_first (λ t, bool_decide (Trip._id t = oid))) w))
      as [E'|(oid' & Hc' & E')]; rewrite E'.
    + unfold trip_delete, try_catch, Trip_findByIdAndDelete, mbind, Async_bind in E'.
      by rewrite Hc in E'.
    + simplify_eq. unfold set_trips. simpl. by rewrite remove_first_idem.
  - destruct (notification_delete_cases id w) as [E|(oid & Hc & E)]; rewrite E; simpl; [done|].
    destruct (notification_delete_cases id
                (set_notifications
                   (remove_first (λ n, bool_decide (Notification._id n = oid))) w))
      as [E'|(oid' & Hc' & E')]; rewrite E'.
    + unfold notification_delete, try_catch, Notification_findByIdAndDelete,
        mbind, Async_bind in E'.
      by rewrite Hc in E'.
    + simplify_eq. unfold set_notifications. simpl. by rewrite remove_first_idem.
Qed.

Lemma trip_add_run body w n d b :
  truthy (prop body "name") && truthy (prop body "date")
  && truthy (prop body "budget") = true →
  requiredString (prop body "name") = Some n →
  requiredDate (prop body "date") = Some d →
  requiredNumber (prop body "budget") = Some b →
  (trip_add body w).2
  = set_trips (λ l, l ++ [Trip.mk (nextId w) n d b]) (set_nextId N.succ w).
Proof.
  intros Ht Hn Hd Hb. unfold trip_add, try_catch. cbv zeta.
  apply andb_true_iff in Ht as [Ht ->]. apply andb_true_iff in Ht as [-> ->].
  unfold new_Trip, new_ObjectId, Trip_save, mbind, mret, Async_bind, Async_ret.
  by rewrite Hn, Hd, Hb.
Qed.

Lemma remove_first_snoc {A} (id : A → ObjectId) (l : list A) x :
  (∀ y, y ∈ l → id y ≠ id x) →
  remove_first (λ y, bool_decide (id y = id x)) (l ++ [x]) = l.
Proof.
  induction l as [|y l IH]; intros H; simpl.
  - by rewrite bool_decide_eq_true_2.
  - rewrite bool_decide_eq_false_2 by (apply H; left).
    f_equal. apply IH. intros z Hz. apply H. by right.
Qed.

Lemma wf_ids_below w i : wf w → i ∈ ids w → (i < nextId w)%N.
Proof. intros [_ _ Hb] Hi. rewrite Forall_forall in Hb. by apply Hb. Qed.

(** X17: adding and then deleting is a round trip: in a world that satisfies
    the invariant, deleting by the id that an add has just assigned is
    answered 200 and brings the collection back to what it was before the
    add. *)
Theorem add_then_delete (body : Body) (id : string) (w : World) :
  wf w → castObjectId id = Some (nextId w) →
  (∀ n d b,
     truthy (prop body "name") && truthy (prop body "date")
     && truthy (prop body "budget") = true →
     requiredString (prop body "name") = Some n →
     requiredDate (prop body "date") = Some d →
     requiredNumber (prop body "budget") = Some b →
     status (trip_delete id (trip_add body w).2).1 = 200
     ∧ trips (trip_delete id (trip_add body w).2).2 = trips w)
  ∧ (∀ m t,
       body !! "message" = Some (JStr m) → body !! "type" = Some (JStr t) →
       m ≠ "" → t ≠ "" →
       status (notification_delete id (notification_add body w).2).1 = 200
       ∧ notifications (notification_delete id (notification_add body w).2).2
         = notifications w).
Proof.
  intros Hw Hc. split.
  - intros n d b Ht Hn Hd Hb. rewrite (trip_add_run body w n d b) by done.
    unfold trip_delete, try_catch, Trip_findByIdAndDelete, mbind, Async_bind.
    rewrite Hc. simpl. split; [done|].
    apply (remove_first_snoc Trip._id (trips w) (Trip.mk (nextId w) n d b)).
    intros y Hy E. simpl in E.
    assert (Trip._id y < nextId w)%N; [|lia].
    apply wf_ids_below; [done|]. unfold ids. rewrite !elem_of_app. right. left.
    by apply list_elem_of_fmap_2.
  - intros m t Hm Ht Nm Nt. rewrite (notification_add_run body w m t) by done.
    unfold notification_delete, try_catch, Notification_findByIdAndDelete,
      mbind, Async_bind.
    rewrite Hc. simpl. split; [done|].
    apply (remove_first_snoc Notification._id (notifications w)
             (Notification.mk (nextId w) m t (now w))).
    intros y Hy E. simpl in E.
    assert (Notification._id y < nextId w)%N; [|lia].
    apply wf_ids_below; [done|]. unfold ids. rewrite !elem_of_app. right. right.
    by apply list_elem_of_fmap_2.
Qed.

Lemma prop_insert_ne (body : Body) key k v :
  key ≠ k → prop (<[key:=v]> body) k = prop body k.
Proof. intros H. unfold prop. by rewrite lookup_insert_ne. Qed.

(** X18: a handler reads the fields it names and no other: a field of the
    body that the handler does not destructure ([_id], [createdAt], [role],
    ...) changes neither the answer nor what is stored. *)
Theorem unread_fields_ignored (body : Body) (key : string) (v : jsval) (w : World) :
  (key ∉ ["firstName"; "lastName"; "email"; "password"] →
   signup (<[key:=v]> body) w = signup body w)
  ∧ (key ∉ ["email"; "password"] → login (<[key:=v]> body) w = login body w)
  ∧ (key ∉ ["email"] → reset_password (<[key:=v]> body) w = reset_password body w)
  ∧ (key ∉ ["name"; "date"; "budget"] → trip_add (<[key:=v]> body) w = trip_add body w)
  ∧ (key ∉ ["message"; "type"] →
     notification_add (<[key:=v]> body) w = notification_add body w).
Proof.
  split; [|split; [|split; [|split]]]; intros H;
    rewrite !not_elem_of_cons in H; destruct_and!.
  - unfold signup. cbv zeta. by rewrite !prop_insert_ne.
  - unfold login. cbv zeta. by rewrite !prop_insert_ne.
  - unfold reset_password. cbv zeta. by rewrite !prop_insert_ne.
  - unfold trip_add. cbv zeta. by rewrite !prop_insert_ne.
  - unfold notification_add. cbv zeta. by rewrite !prop_insert_ne.
Qed.

End Backend.

(** ** Start-up: the Firebase Admin SDK (lines 12-21)

    The module initialises the SDK once, from the service account file if
    there is one, and [/reset-password] later asks [admin.auth()] for the
    link. *)

Section Firebase.

(** [admin.credential.cert(serviceAccount)], which throws on an account that
    is malformed, and the identity provider's answer to
    [generatePasswordResetLink] for an app with a credential. *)
Variable Credential : Type.
Variable cert : jsval → outcome Credential.
Variable provider : Credential → jsval → outcome string.
Variable deliver : Mail → outcome ().
Variable EMAIL_USER : option string.

(** The process while the module loads: [admin.apps] and what was written
    to the console. *)
Record Process := mkProcess { apps : list Credential; console : list string }.

(** Lines 13-21. [file] is [./Vaacay.json]: [None] when [fs.existsSync] says
    it is not there, and otherwise what [require] makes of it, which throws
    on a file that is no JSON.  A [Throw] is an exception at the top level of
    the module: the server does not start. *)
Definition init_firebase (file : option (outcome jsval)) (p : Process) : outcome Process :=
  match file with
  | Some (Return serviceAccount) =>
      if decide (length (apps p) = 0)
      then match cert serviceAccount with
           | Return credential => Return (mkProcess (apps p ++ [credential]) (console p))
           | Throw e => Throw e
           end
      else Return p
  | Some (Throw e) => Throw e
  | None =>
      Return (mkProcess (apps p)
                (console p ++ ["Firebase service account JSON file is missing!"]))
  end.

(** [admin.auth().generatePasswordResetLink(email)] (line 112): [admin.auth()]
    throws when no app was initialised. *)
Definition admin_generatePasswordResetLink (p : Process) (email : jsval) : outcome string :=
  match apps p with
  | credential :: _ => provider credential email
  | [] => Throw "The default Firebase app does not exist."
  end.

(** X19: start-up with the service account file missing does not throw: the
    module loads, with the error on the console and the apps as they were,
    and when there was no app, every password-reset request is from then on
    answered 500 without a mail being sent.  With a good file and no app yet,
    start-up ends with the one app that holds the file's credential, and the
    requests reach the provider with it.  Whenever start-up ends, it has not
    initialised a second app. *)
Theorem firebase_start_up (file : option (outcome jsval)) (p : Process) :
  (file = None →
   init_firebase file p
   = Return (mkProcess (apps p)
               (console p ++ ["Firebase service account JSON file is missing!"]))
   ∧ (apps p = [] →
      ∀ body w,
        reset_password
          (admin_generatePasswordResetLink
             (mkProcess (apps p)
                (console p ++ ["Firebase service account JSON file is missing!"])))
          deliver EMAIL_USER body w
        = (mkResponse 500 (error_body "Failed to send reset email"), w)))
  ∧ (∀ serviceAccount credential,
       file = Some (Return serviceAccount) → cert serviceAccount = Return credential →
       apps p = [] →
       init_firebase file p = Return (mkProcess [credential] (console p))
       ∧ ∀ body w,
           reset_password
             (admin_generatePasswordResetLink (mkProcess [credential] (console p)))
             deliver EMAIL_USER body w
           = reset_password (provider credential) deliver EMAIL_USER body w)
  ∧ (∀ p', init_firebase file p = Return p' →
       (length (apps p') ≤ max 1 (length (apps p)))%nat
       ∧ (apps p ≠ [] → apps p' = apps p)).
Proof.
  split; [|split].
  - intros ->. split; [done|]. intros E body w.
    unfold reset_password, try_catch, admin_generatePasswordResetLink,
      mbind, Async_bind, settle. simpl. by rewrite E.
  - intros serviceAccount credential -> Hc E. unfold init_firebase.
    rewrite Hc, E. done.
  - unfold init_firebase. intros p' H.
    destruct file as [[serviceAccount|e]|]; [|done|].
    + destruct (decide (length (apps p) = 0)) as [E|E].
      * destruct (cert serviceAccount) as [credential|e]; [|done].
        injection H as <-. simpl. apply nil_length_inv in E. rewrite E. simpl.
        split; [lia|done].
      * injection H as <-. split; [lia|done].
    + injection H as <-. simpl. split; [lia|done].
Qed.

End Firebase.

(** ** The handlers on the reference instance *)

Module Run.

Definition signup : Body → World → Response * World :=
  signup Ref.castStringOther Ref.castQueryOther Ref.genSalt Ref.hashSync.

Definition login : Body → World → Response * World :=
  login Ref.castQueryOther Ref.compareSync Ref.jwt_encode Ref.timespanOther Ref.JWT_SECRET.

Definition reset_password : Body → World → Response * World :=
  reset_password Ref.generatePasswordResetLink Ref.deliver Ref.EMAIL_USER.

Definition trip_add : Body → World → Response * World :=
  trip_add Ref.castStringOther Ref.castDate Ref.castNumber.

Definition trip_delete : string → World → Response * World :=
  trip_delete Ref.castObjectId12.

Definition notification_add : Body → World → Response * World :=
  notification_add Ref.castStringOther.

Definition notification_delete : string → World → Response * World :=
  notification_delete Ref.castObjectId12.

Definition handle : Request → World → Response * World :=
  handle Ref.castStringOther Ref.castDate Ref.castNumber Ref.castQueryOther
    Ref.castObjectId12 Ref.genSalt Ref.hashSync Ref.compareSync Ref.jwt_encode
    Ref.timespanOther Ref.generatePasswordResetLink Ref.deliver
    Ref.JWT_SECRET Ref.EMAIL_USER.

Definition serve : list Request → World → World :=
  serve Ref.castStringOther Ref.castDate Ref.castNumber Ref.castQueryOther
    Ref.castObjectId12 Ref.genSalt Ref.hashSync Ref.compareSync Ref.jwt_encode
    Ref.timespanOther Ref.generatePasswordResetLink Ref.deliver
    Ref.JWT_SECRET Ref.EMAIL_USER.

End Run.

(** ** The theorems at work

    Each theorem above with a hypothesis is applied here to the reference
    instance, where its hypotheses hold by computation; and where a stated
    property fails on the code, the run that shows it. *)

Lemma length_append (a b : string) :
  String.length (a +:+ b) = String.length a + String.length b.
Proof. induction a as [|c a IH]; simpl; [done|]. by rewrite IH. Qed.

Lemma Ref_hashSync_nonempty plain salt : Ref.hashSync plain salt ≠ "".
Proof. done. Qed.

Lemma Ref_hashSync_one_way plain salt : Ref.hashSync plain salt ≠ plain.
Proof.
  intros E. apply (f_equal String.length) in E.
  unfold Ref.hashSync in E. rewrite !length_append in E. simpl in E. lia.
Qed.

(** Closes a decidable goal by evaluating its decision procedure. *)
Ltac by_computation :=
  match goal with
  | |- ?P => apply (bool_decide_unpack P); vm_compute; exact I
  end.

Lemma add_missing_field_rejected_witness :
  Run.trip_add Ref.only_name Ref.world
  = (mkResponse 400 (error_body "All fields are required"), Ref.world)
  ∧ Run.notification_add Ref.only_name Ref.world
    = (mkResponse 400 (error_body "Message and type are required"), Ref.world).
Proof.
  split.
  - apply (add_missing_field_rejected Ref.castStringOther Ref.castDate Ref.castNumber
             Ref.only_name Ref.world).
    right. left. reflexivity.
  - apply (add_missing_field_rejected Ref.castStringOther Ref.castDate Ref.castNumber
             Ref.only_name Ref.world).
    left. reflexivity.
Defined.

Lemma falsy_field_rejected_witness :
  Run.trip_add Ref.free_trip Ref.world
  = (mkResponse 400 (error_body "All fields are required"), Ref.world)
  ∧ Run.trip_add Ref.blank_name Ref.world
    = (mkResponse 400 (error_body "All fields are required"), Ref.world)
  ∧ Run.notification_add Ref.blank_type Ref.world
    = (mkResponse 400 (error_body "Message and type are required"), Ref.world)
  ∧ Run.signup Ref.bob_blank_first Ref.world
    = (mkResponse 400 (error_body "All fields are required"), Ref.world).
Proof.
  split; [|split; [|split]].
  - destruct (falsy_field_rejected Ref.castStringOther Ref.castDate Ref.castNumber
                Ref.castQueryOther Ref.genSalt Ref.hashSync Ref.free_trip Ref.world
                "budget" (JNum 0))
      as (H & _); [reflexivity | reflexivity |].
    apply H. by_computation.
  - destruct (falsy_field_rejected Ref.castStringOther Ref.castDate Ref.castNumber
                Ref.castQueryOther Ref.genSalt Ref.hashSync Ref.blank_name Ref.world
                "name" (JStr ""))
      as (H & _); [reflexivity | reflexivity |].
    apply H. by_computation.
  - destruct (falsy_field_rejected Ref.castStringOther Ref.castDate Ref.castNumber
                Ref.castQueryOther Ref.genSalt Ref.hashSync Ref.blank_type Ref.world
                "type" (JStr ""))
      as (_ & H & _); [reflexivity | reflexivity |].
    apply H. by_computation.
  - destruct (falsy_field_rejected Ref.castStringOther Ref.castDate Ref.castNumber
                Ref.castQueryOther Ref.genSalt Ref.hashSync Ref.bob_blank_first Ref.world
                "firstName" (JStr ""))
      as (_ & _ & H & _); [reflexivity | reflexivity |].
    apply H. by_computation.
Defined.

(** Nobody in the reference world has the email of Zed. *)
Lemma Ref_zed_unknown v : v ∈ users Ref.world → User.email v ≠ "zed@example.com".
Proof. simpl. by intros ->%list_elem_of_singleton. Qed.

Lemma Ref_bob_unknown v : v ∈ users Ref.world → User.email v ≠ "bob@example.com".
Proof. simpl. by intros ->%list_elem_of_singleton. Qed.

(** C1 as stated fails on a request whose email is no string.  Line 86 hands
    the email to [User.findOne] as it came; the operator object
    [{ "$ne": null }] is the email of no stored user and selects the first
    of them, and with that user's password the request is logged in as that
    user. *)
Lemma login_operator_email :
  prop Ref.anyone_login "email" = JObj [("$ne", JNull)]
  ∧ User.email <$> users Ref.world = ["ann@example.com"]
  ∧ Run.login Ref.anyone_login Ref.world
    = (mkResponse 200
         (Object [("message", Str "Login successful!");
                  ("token", Str "1.ann@example.com.1700000000.1700003600.s3cret")]),
       Ref.world).
Proof. split; [|split]; reflexivity. Qed.

Lemma login_outcomes_witness :
  Run.login Ref.zed_login Ref.world
  = (mkResponse 400 (error_body "User not found"), Ref.world)
  ∧ Run.login Ref.ann_wrong Ref.world
    = (mkResponse 400 (error_body "Invalid credentials"), Ref.world)
  ∧ Run.login Ref.ann_login Ref.world
    = (mkResponse 200
         (Object [("message", Str "Login successful!");
                  ("token", Str "1.ann@example.com.1700000000.1700003600.s3cret")]),
       Ref.world).
Proof.
  split; [|split].
  - destruct (login_outcomes Ref.castQueryOther Ref.compareSync Ref.jwt_encode
                Ref.timespanOther Ref.JWT_SECRET Ref.zed_login Ref.world
                "zed@example.com" Ref.ann "s3cret") as [H _]; [reflexivity|].
    apply H. exact Ref_zed_unknown.
  - destruct (login_outcomes Ref.castQueryOther Ref.compareSync Ref.jwt_encode
                Ref.timespanOther Ref.JWT_SECRET Ref.ann_wrong Ref.world
                "ann@example.com" Ref.ann "s3cret") as [_ H]; [reflexivity|].
    destruct H as [H _]; [by_computation | by left | reflexivity |].
    apply H. reflexivity.
  - destruct (login_outcomes Ref.castQueryOther Ref.compareSync Ref.jwt_encode
                Ref.timespanOther Ref.JWT_SECRET Ref.ann_login Ref.world
                "ann@example.com" Ref.ann "s3cret") as [_ H]; [reflexivity|].
    destruct H as [_ H]; [by_computation | by left | reflexivity |].
    apply H; [reflexivity | reflexivity | discriminate].
Defined.

Lemma login_absent_fields_witness :
  Run.login ∅ Ref.world = (mkResponse 400 (error_body "User not found"), Ref.world)
  ∧ ∃ details,
      Run.login Ref.ann_only Ref.world
      = (mkResponse 500 (Object [("error", Str "Server error"); ("details", Str details)]),
         Ref.world).
Proof.
  split.
  - destruct (login_absent_fields Ref.castQueryOther Ref.compareSync Ref.jwt_encode
                Ref.timespanOther Ref.JWT_SECRET ∅ Ref.world Ref.ann) as [H _].
    apply H. reflexivity.
  - destruct (login_absent_fields Ref.castQueryOther Ref.compareSync Ref.jwt_encode
                Ref.timespanOther Ref.JWT_SECRET Ref.ann_only Ref.world Ref.ann) as [_ H].
    apply H; [by_computation | by left | reflexivity | reflexivity].
Defined.

(** C3 as stated fails: the answer to an unknown email and the answer to a wrong
    password for a known email differ. *)
Lemma login_failures_differ :
  (Run.login Ref.zed_login Ref.world).1 = mkResponse 400 (error_body "User not found")
  ∧ (Run.login Ref.ann_wrong Ref.world).1
    = mkResponse 400 (error_body "Invalid credentials")
  ∧ (Run.login Ref.zed_login Ref.world).1 ≠ (Run.login Ref.ann_wrong Ref.world).1.
Proof. vm_compute. repeat split. discriminate. Qed.

Lemma login_failures_distinguishable_witness :
  status (Run.login Ref.zed_login Ref.world).1
  = status (Run.login Ref.ann_wrong Ref.world).1
  ∧ (Run.login Ref.zed_login Ref.world).1 ≠ (Run.login Ref.ann_wrong Ref.world).1.
Proof.
  apply (login_failures_distinguishable Ref.castQueryOther Ref.compareSync
           Ref.jwt_encode Ref.timespanOther Ref.JWT_SECRET Ref.zed_login Ref.ann_wrong
           Ref.world "zed@example.com" Ref.ann);
    [reflexivity | exact Ref_zed_unknown | by_computation | by left
    | reflexivity | reflexivity].
Defined.

(** C4 as stated fails: with the email of a stored user and the other fields
    absent, the error is the validation error, not the conflict. *)
Lemma signup_registered_email_validation_first :
  Ref.ann_only !! "email" = Some (JStr (User.email Ref.ann))
  ∧ users Ref.world = [Ref.ann]
  ∧ Run.signup Ref.ann_only Ref.world
    = (mkResponse 400 (error_body "All fields are required"), Ref.world)
  ∧ error_body "All fields are required" ≠ error_body "Email already registered".
Proof. vm_compute. repeat split. discriminate. Qed.

Lemma signup_registered_email_witness :
  Run.signup Ref.ann_again Ref.world
  = (mkResponse 400 (error_body "Email already registered"), Ref.world)
  ∧ status (Run.signup Ref.ann_only Ref.world).1 = 400
  ∧ (Run.signup Ref.ann_only Ref.world).2 = Ref.world.
Proof.
  split.
  - destruct (signup_registered_email Ref.castStringOther Ref.castQueryOther Ref.genSalt
                Ref.hashSync Ref.ann_again Ref.world Ref.ann) as (_ & H & _);
      [by left | reflexivity |].
    apply H; [reflexivity | discriminate].
  - destruct (signup_registered_email Ref.castStringOther Ref.castQueryOther Ref.genSalt
                Ref.hashSync Ref.ann_only Ref.world Ref.ann) as (H & _);
      [by left | reflexivity |].
    exact H.
Defined.

(** C2 as stated fails: all four fields are present and the email is new, but
    [firstName] is the empty string, and the answer is 400 with no user
    stored. *)
Lemma signup_present_but_empty :
  Ref.bob_blank_first !! "firstName" = Some (JStr "")
  ∧ Ref.bob_blank_first !! "lastName" = Some (JStr "Ray")
  ∧ Ref.bob_blank_first !! "email" = Some (JStr "bob@example.com")
  ∧ Ref.bob_blank_first !! "password" = Some (JStr "hunter2")
  ∧ users Ref.world = [Ref.ann]
  ∧ User.email Ref.ann = "ann@example.com"
  ∧ Run.signup Ref.bob_blank_first Ref.world
    = (mkResponse 400 (error_body "All fields are required"), Ref.world).
Proof. vm_compute. repeat split. Qed.

Lemma signup_success_witness :
  ∃ stored,
    Run.signup Ref.bob Ref.world
    = (mkResponse 201 (Object [("message", Str "User registered successfully!")]),
       {| users := [Ref.ann; User.mk 6%N "Bob" "Ray" "bob@example.com" stored];
          trips := trips Ref.world; notifications := notifications Ref.world;
          nextId := 7%N; now := now Ref.world; entropy := 2%N; outbox := [] |})
    ∧ stored = "$2b$10$b$hunter2"
    ∧ stored ≠ "hunter2".
Proof.
  apply (signup_success Ref.castStringOther Ref.castQueryOther Ref.genSalt Ref.hashSync
           Ref.bob Ref.world "Bob" "Ray" "bob@example.com" "hunter2");
    [exact Ref_hashSync_nonempty | exact Ref_hashSync_one_way
    | reflexivity | reflexivity | reflexivity | reflexivity
    | discriminate | discriminate | discriminate | discriminate
    | exact Ref_bob_unknown].
Defined.

Lemma reset_password_outcomes_witness :
  Run.reset_password ∅ Ref.world
  = (mkResponse 500 (error_body "Failed to send reset email"), Ref.world)
  ∧ Run.reset_password Ref.bounce Ref.world
    = (mkResponse 500 (error_body "Failed to send reset email"), Ref.world)
  ∧ (Run.reset_password Ref.ann_only Ref.world).1
    = mkResponse 200
        (Object [("message", Str "Password reset email sent!");
                 ("link", Str "https://id.example/reset?email=ann@example.com")]).
Proof.
  split; [|split].
  - destruct (reset_password_outcomes Ref.generatePasswordResetLink Ref.deliver
                Ref.EMAIL_USER ∅ Ref.world ""
                "The email address is improperly formatted.") as [H _].
    apply H. reflexivity.
  - destruct (reset_password_outcomes Ref.generatePasswordResetLink Ref.deliver
                Ref.EMAIL_USER Ref.bounce Ref.world
                "https://id.example/reset?email=bounce@example.com"
                "Recipient address rejected") as [_ H].
    destruct H as [H _]; [reflexivity|]. apply H. reflexivity.
  - destruct (reset_password_outcomes Ref.generatePasswordResetLink Ref.deliver
                Ref.EMAIL_USER Ref.ann_only Ref.world
                "https://id.example/reset?email=ann@example.com" "") as [_ H].
    destruct H as [_ H]; [reflexivity|].
    unfold Run.reset_password. rewrite H; reflexivity.
Defined.

Lemma trip_list_sorted_witness :
  trips Ref.world = [Ref.rome; Ref.oslo; Ref.lima]
  ∧ trip_list Ref.world
    = (mkResponse 200 (TripArray [Ref.oslo; Ref.lima; Ref.rome]), Ref.world).
Proof.
  split; [reflexivity|].
  destruct (trip_list_sorted Ref.world Ref.oslo Ref.lima Ref.rome)
    as (l & E & _ & _ & _ & H).
  rewrite E, H; [reflexivity | by_computation |].
  exact (Permutation_cons_append [Ref.oslo; Ref.lima] Ref.rome).
Defined.

(** C8 as stated fails: an id that is no [ObjectId] is answered 500. *)
Lemma delete_malformed_id :
  Run.trip_delete "abc" Ref.world
  = (mkResponse 500 (error_body "Error deleting trip"), Ref.world)
  ∧ Run.notification_delete "abc" Ref.world
    = (mkResponse 500 (error_body "Error deleting notification"), Ref.world).
Proof. vm_compute. repeat split. Qed.

Lemma delete_by_id_witness :
  Run.trip_delete Ref.id3 Ref.world
  = (mkResponse 200 (Object [("message", Str "Trip deleted successfully!")]),
     set_trips (λ _, [Ref.rome; Ref.lima]) Ref.world)
  ∧ Run.notification_delete Ref.id3 Ref.world
    = (mkResponse 200 (Object [("message", Str "Notification deleted successfully!")]),
       Ref.world)
  ∧ Run.trip_delete "abc" Ref.world
    = (mkResponse 500 (error_body "Error deleting trip"), Ref.world).
Proof.
  destruct (delete_by_id Ref.castObjectId12 Ref.id3 Ref.world 3%N
              [Ref.rome] [Ref.lima] Ref.oslo [] [] Ref.hello) as [H _].
  destruct H as [(Ht & _ & Hs) (Hn & Hw & _)]; [reflexivity|].
  split; [|split].
  - apply injective_projections; [exact Ht|].
    apply Hs; [by_computation | reflexivity | reflexivity].
  - apply injective_projections; [exact Hn|].
    apply Hw. simpl. by intros x ->%list_elem_of_singleton.
  - destruct (delete_by_id Ref.castObjectId12 "abc" Ref.world 3%N
                [] [] Ref.oslo [] [] Ref.hello) as [_ H'].
    apply H'. reflexivity.
Defined.

Lemma substring_all s : substring 0 (String.length s) s = s.
Proof. induction s as [|c s IH]; simpl; [done|]. by rewrite IH. Qed.

Lemma substring_append_r a b :
  substring (String.length a) (String.length b) (a +:+ b) = b.
Proof. induction a as [|c a IH]; simpl; [apply substring_all | done]. Qed.

(** The reference comparison accepts the reference hash of the same
    password. *)
Lemma Ref_compare_hash plain salt :
  Ref.compareSync plain (Ref.hashSync plain salt) = true.
Proof.
  unfold Ref.compareSync, Ref.hashSync. apply bool_decide_eq_true.
  rewrite !length_append. simpl.
  replace (S (S (S (S (S (S (S (String.length salt + S (String.length plain))))))))
           - (String.length plain + 1))
    with (7 + String.length salt) by lia.
  simpl. replace (String.length plain + 1) with (String.length (String "$" plain))
    by (simpl; lia).
  exact (substring_append_r salt (String "$" plain)).
Qed.

Lemma serve_preserves_wf_witness :
  wf (Run.serve [PostSignup Ref.bob; PostLogin Ref.bob_login; PostTripAdd Ref.kyiv;
                 DeleteTrip Ref.id3; GetTrip]
                Ref.empty).
Proof.
  destruct (serve_preserves_wf Ref.castStringOther Ref.castDate Ref.castNumber
              Ref.castQueryOther Ref.castObjectId12 Ref.genSalt Ref.hashSync
              Ref.compareSync Ref.jwt_encode Ref.timespanOther
              Ref.generatePasswordResetLink Ref.deliver Ref.JWT_SECRET Ref.EMAIL_USER
              [PostSignup Ref.bob; PostLogin Ref.bob_login; PostTripAdd Ref.kyiv;
               DeleteTrip Ref.id3; GetTrip]
              Ref.empty) as [Hempty Hserve].
  apply Hserve, Hempty; reflexivity.
Defined.

Lemma notification_list_sorted_witness :
  (notification_list (set_notifications (λ _, [Ref.hello; Ref.bye]) Ref.world)).1
  = mkResponse 200 (NotificationArray [Ref.bye; Ref.hello]).
Proof.
  destruct (notification_list_sorted
              (set_notifications (λ _, [Ref.hello; Ref.bye]) Ref.world)
              Ref.hello Ref.bye) as (l & E & _ & _ & H).
  rewrite E, H; [reflexivity | by_computation | reflexivity].
Defined.

Lemma trip_add_success_witness :
  Run.trip_add Ref.kyiv Ref.world
  = (mkResponse 201
       (Object [("message", Str "Trip added successfully!");
                ("trip", TripDoc (Trip.mk 6%N "Kyiv" 150%Z 10%float))]),
     set_trips (λ l, l ++ [Trip.mk 6%N "Kyiv" 150%Z 10%float])
               (set_nextId N.succ Ref.world)).
Proof.
  apply (trip_add_success Ref.castStringOther Ref.castDate Ref.castNumber
           Ref.kyiv Ref.world "Kyiv" 150%Z 10%float); reflexivity.
Defined.

Lemma signup_then_login_witness :
  (Run.login Ref.bob_login (Run.signup Ref.bob Ref.world).2).1
  = mkResponse 200
      (Object [("message", Str "Login successful!");
               ("token", Str "6.bob@example.com.1700000000.1700003600.s3cret")]).
Proof.
  apply (signup_then_login Ref.castStringOther Ref.castQueryOther Ref.genSalt
           Ref.hashSync Ref.compareSync Ref.jwt_encode Ref.timespanOther
           Ref.JWT_SECRET Ref.bob Ref.bob_login Ref.world
           "Bob" "Ray" "bob@example.com" "hunter2" "s3cret");
    [exact Ref_hashSync_nonempty | exact Ref_compare_hash | by_computation
    | reflexivity | reflexivity | reflexivity | reflexivity
    | discriminate | discriminate | discriminate | discriminate
    | exact Ref_bob_unknown | reflexivity | reflexivity | reflexivity | discriminate].
Defined.

Lemma Ref_world_wf : wf Ref.world.
Proof. split; by_computation. Qed.

Lemma handle_frame_witness :
  trips (Run.handle (PostSignup Ref.bob) Ref.world).2 = trips Ref.world
  ∧ users (Run.handle (DeleteTrip Ref.id3) Ref.world).2 = users Ref.world.
Proof.
  split.
  - apply (handle_frame Ref.castStringOther Ref.castDate Ref.castNumber
             Ref.castQueryOther Ref.castObjectId12 Ref.genSalt Ref.hashSync
             Ref.compareSync Ref.jwt_encode Ref.timespanOther
             Ref.generatePasswordResetLink Ref.deliver Ref.JWT_SECRET Ref.EMAIL_USER
             (PostSignup Ref.bob) Trips Ref.world).
    discriminate.
  - apply (handle_frame Ref.castStringOther Ref.castDate Ref.castNumber
             Ref.castQueryOther Ref.castObjectId12 Ref.genSalt Ref.hashSync
             Ref.compareSync Ref.jwt_encode Ref.timespanOther
             Ref.generatePasswordResetLink Ref.deliver Ref.JWT_SECRET Ref.EMAIL_USER
             (DeleteTrip Ref.id3) Users Ref.world).
    discriminate.
Defined.

Lemma error_persists_nothing_witness :
  same_store Ref.world (Run.handle (PostSignup Ref.bob_numeric) Ref.world).2.
Proof.
  apply (error_persists_nothing Ref.castStringOther Ref.castDate Ref.castNumber
           Ref.castQueryOther Ref.castObjectId12 Ref.genSalt Ref.hashSync
           Ref.compareSync Ref.jwt_encode Ref.timespanOther
           Ref.generatePasswordResetLink Ref.deliver Ref.JWT_SECRET Ref.EMAIL_USER
           (PostSignup Ref.bob_numeric) Ref.world).
  by_computation.
Defined.

Lemma users_only_grow_witness :
  Ref.ann ∈ users (Run.serve [PostSignup Ref.bob; DeleteTrip Ref.id3; PostLogin Ref.ann_wrong]
                             Ref.world).
Proof.
  destruct (users_only_grow Ref.castStringOther Ref.castDate Ref.castNumber
              Ref.castQueryOther Ref.castObjectId12 Ref.genSalt Ref.hashSync
              Ref.compareSync Ref.jwt_encode Ref.timespanOther
              Ref.generatePasswordResetLink Ref.deliver Ref.JWT_SECRET Ref.EMAIL_USER
              [PostSignup Ref.bob; DeleteTrip Ref.id3; PostLogin Ref.ann_wrong]
              Ref.world Ref.ann) as [_ H].
  apply H. by left.
Defined.

Lemma registered_email_stays_taken_witness :
  status (Run.signup Ref.ann_again
            (Run.serve [PostSignup Ref.bob; DeleteTrip Ref.id3] Ref.world)).1 = 400.
Proof.
  destruct (registered_email_stays_taken Ref.castStringOther Ref.castDate Ref.castNumber
              Ref.castQueryOther Ref.castObjectId12 Ref.genSalt Ref.hashSync
              Ref.compareSync Ref.jwt_encode Ref.timespanOther
              Ref.generatePasswordResetLink Ref.deliver Ref.JWT_SECRET Ref.EMAIL_USER
              [PostSignup Ref.bob; DeleteTrip Ref.id3] Ref.ann_again Ref.world Ref.ann)
    as [H _]; [by left | reflexivity |].
  exact H.
Defined.

Lemma signup_password_not_a_string_witness :
  ∃ details,
    Run.signup Ref.bob_numeric Ref.world
    = (mkResponse 500
         (Object [("error", Str "Error adding user"); ("details", Str details)]),
       Ref.world).
Proof.
  apply (signup_password_not_a_string Ref.castStringOther Ref.castQueryOther Ref.genSalt
           Ref.hashSync Ref.bob_numeric Ref.world "bob@example.com");
    [reflexivity | reflexivity | reflexivity | discriminate | exact Ref_bob_unknown
    | reflexivity | vm_compute; discriminate].
Defined.

Lemma login_without_secret_witness :
  ∃ details,
    login Ref.castQueryOther Ref.compareSync Ref.jwt_encode Ref.timespanOther None
      Ref.ann_login Ref.world
    = (server_error details, Ref.world).
Proof.
  destruct (login_without_secret Ref.castQueryOther Ref.compareSync Ref.jwt_encode
              Ref.timespanOther None Ref.ann_login Ref.world Ref.ann) as [H _];
    [by left | by_computation | by left | reflexivity |].
  apply H. reflexivity.
Defined.

Lemma add_invalid_document_witness :
  Run.trip_add Ref.kyiv_soon Ref.world
  = (mkResponse 500 (error_body "Error adding trip"), set_nextId N.succ Ref.world)
  ∧ ∃ details,
      Run.notification_add Ref.nested Ref.world
      = (mkResponse 500
           (Object [("error", Str "Error adding notification"); ("details", Str details)]),
         set_nextId N.succ Ref.world).
Proof.
  split.
  - destruct (add_invalid_document Ref.castStringOther Ref.castDate Ref.castNumber
                Ref.kyiv_soon Ref.world) as [H _].
    apply H; [reflexivity|]. right. left. reflexivity.
  - destruct (add_invalid_document Ref.castStringOther Ref.castDate Ref.castNumber
                Ref.nested Ref.world) as [_ H].
    apply H; [reflexivity|]. left. reflexivity.
Defined.

Lemma notification_add_success_witness :
  Run.notification_add Ref.hi Ref.world
  = (mkResponse 201
       (Object [("message", Str "Notification added successfully!");
                ("notification",
                 NotificationDoc (Notification.mk 6%N "Hi" "info" 1700000000000%Z))]),
     set_notifications (λ l, l ++ [Notification.mk 6%N "Hi" "info" 1700000000000%Z])
                       (set_nextId N.succ Ref.world)).
Proof.
  apply (notification_add_success Ref.castStringOther Ref.hi Ref.world "Hi" "info");
    reflexivity.
Defined.

Lemma notifications_newest_first_witness :
  (notification_list
     (Run.notification_add Ref.hi_again
        (set_now (λ _, 1700000000060%Z) (Run.notification_add Ref.hi Ref.empty).2)).2).1
  = mkResponse 200
      (NotificationArray
         [Notification.mk 1%N "Hi again" "info" 1700000000060%Z;
          Notification.mk 0%N "Hi" "info" 1700000000000%Z]).
Proof.
  apply (notifications_newest_first Ref.castStringOther Ref.hi Ref.hi_again Ref.empty
           1700000000060%Z "Hi" "info" "Hi again" "info");
    [reflexivity | reflexivity | reflexivity | reflexivity | reflexivity
    | discriminate | discriminate | discriminate | discriminate | reflexivity].
Defined.

Lemma delete_twice_witness :
  Run.trip_delete Ref.id3 (Run.trip_delete Ref.id3 Ref.world).2
  = Run.trip_delete Ref.id3 Ref.world
  ∧ Run.notification_delete "abc" (Run.notification_delete "abc" Ref.world).2
    = Run.notification_delete "abc" Ref.world.
Proof.
  split.
  - destruct (delete_twice Ref.castObjectId12 Ref.id3 Ref.world) as [H _].
    apply H. by_computation.
  - destruct (delete_twice Ref.castObjectId12 "abc" Ref.world) as [_ H].
    apply H. by_computation.
Defined.

Lemma add_then_delete_witness :
  trips (Run.trip_delete Ref.id6 (Run.trip_add Ref.kyiv Ref.world).2).2 = trips Ref.world
  ∧ notifications (Run.notification_delete Ref.id6 (Run.notification_add Ref.hi Ref.world).2).2
    = notifications Ref.world.
Proof.
  split.
  - destruct (add_then_delete Ref.castStringOther Ref.castDate Ref.castNumber
                Ref.castObjectId12 Ref.kyiv Ref.id6 Ref.world Ref_world_wf eq_refl)
      as [H _].
    destruct (H "Kyiv" 150%Z 10%float) as [_ H']; [reflexivity..|]. exact H'.
  - destruct (add_then_delete Ref.castStringOther Ref.castDate Ref.castNumber
                Ref.castObjectId12 Ref.hi Ref.id6 Ref.world Ref_world_wf eq_refl)
      as [_ H].
    destruct (H "Hi" "info") as [_ H']; [reflexivity | reflexivity | discriminate..|].
    exact H'.
Defined.

Lemma unread_fields_ignored_witness :
  Run.signup (<[ "role" := JStr "admin" ]> Ref.bob) Ref.world = Run.signup Ref.bob Ref.world
  ∧ Run.notification_add (<[ "createdAt" := JStr "0" ]> Ref.hi) Ref.world
    = Run.notification_add Ref.hi Ref.world.
Proof.
  split.
  - destruct (unread_fields_ignored Ref.castStringOther Ref.castDate Ref.castNumber
                Ref.castQueryOther Ref.genSalt Ref.hashSync Ref.compareSync Ref.jwt_encode
                Ref.timespanOther Ref.generatePasswordResetLink Ref.deliver
                Ref.JWT_SECRET Ref.EMAIL_USER Ref.bob "role" (JStr "admin") Ref.world)
      as (H & _).
    apply H. by_computation.
  - destruct (unread_fields_ignored Ref.castStringOther Ref.castDate Ref.castNumber
                Ref.castQueryOther Ref.genSalt Ref.hashSync Ref.compareSync Ref.jwt_encode
                Ref.timespanOther Ref.generatePasswordResetLink Ref.deliver
                Ref.JWT_SECRET Ref.EMAIL_USER Ref.hi "createdAt" (JStr "0") Ref.world)
      as (_ & _ & _ & _ & H).
    apply H. by_computation.
Defined.

(** A service account is an object; the provider is the reference one. *)
Definition Ref_cert (serviceAccount : jsval) : outcome string :=
  match serviceAccount with
  | JObj _ => Return "service-account"
  | _ => Throw "Failed to parse certificate key file"
  end.

Definition Ref_provider (credential : string) : jsval → outcome string :=
  Ref.generatePasswordResetLink.

Lemma firebase_start_up_witness :
  init_firebase string Ref_cert None (mkProcess string [] [])
  = Return (mkProcess string [] ["Firebase service account JSON file is missing!"])
  ∧ reset_password
      (admin_generatePasswordResetLink string Ref_provider
         (mkProcess string [] ["Firebase service account JSON file is missing!"]))
      Ref.deliver Ref.EMAIL_USER Ref.ann_only Ref.world
    = (mkResponse 500 (error_body "Failed to send reset email"), Ref.world)
  ∧ init_firebase string Ref_cert (Some (Return (JObj []))) (mkProcess string [] [])
    = Return (mkProcess string ["service-account"] [])
  ∧ reset_password
      (admin_generatePasswordResetLink string Ref_provider
         (mkProcess string ["service-account"] []))
      Ref.deliver Ref.EMAIL_USER Ref.ann_only Ref.world
    = Run.reset_password Ref.ann_only Ref.world.
Proof.
  destruct (firebase_start_up string Ref_cert Ref_provider Ref.deliver Ref.EMAIL_USER
              None (mkProcess string [] [])) as (H & _ & _).
  destruct (H eq_refl) as [H1 H2].
  destruct (firebase_start_up string Ref_cert Ref_provider Ref.deliver Ref.EMAIL_USER
              (Some (Return (JObj []))) (mkProcess string [] [])) as (_ & G & _).
  destruct (G (JObj []) "service-account" eq_refl eq_refl eq_refl) as [G1 G2].
  split; [exact H1|]. split; [exact (H2 eq_refl Ref.ann_only Ref.world)|].
  split; [exact G1|]. exact (G2 Ref.ann_only Ref.world).
Defined.
